(** * Verification of the OperatorPolicy reconciler

    A shallow embedding of [controllers/operatorpolicy_controller.go]
    (config-policy-controller): the reconciliation pipeline
    [Reconcile] / [handleResources], the desired-state builders, the
    per-kind reconcilers, the install-plan approver, the regular
    expression that correlates a namespace-wide resolution failure with
    one subscription, and the merge engine's dry-run logic.

    Conventions of the embedding:
    - a Go [error] is a message ([Error]); a nil error is [None];
    - the content of an [unstructured.Unstructured] lives in a heap of
      JSON trees and is reached through an address ([loc]), so that what
      the reconciler shares with the watch cache, and what it copies, is
      visible;
    - calls that leave the process (dependency watcher, cluster client)
      are answered by the fields of an environment record [Env];
    - helpers of the package that live in other files (condition and
      related-object constructors, [updateStatus], [handleKeys],
      [removeFieldsForComparison]) are either kept symbolic, as the call
      the source makes, or answered by [Env]. *)

From Stdlib Require Import String Ascii List Bool ZArith Lia.
From stdpp Require Import base list.
Import ListNotations.

Local Open Scope list_scope.
Local Open Scope string_scope.

(** ** Errors *)

Definition Error := string.

(** [fmt.Errorf("<prefix>: %w", err)] *)
Definition wrapErr (pfx : string) (e : Error) : Error := pfx ++ ": " ++ e.

(** [utilerrors.NewAggregate]: nil for an empty list, otherwise an error
    that holds every element of the list. *)
Definition NewAggregate (errs : list Error) : option (list Error) :=
  match errs with
  | [] => None
  | _ => Some errs
  end.

(** ** JSON trees: the content of [map[string]interface{}] objects

    Numbers are the [int64] of unstructured content; no field that the
    reconciler reads is a [float64]. *)

#[warnings="-register-all"]
Inductive JSON :=
| JNull
| JBool (b : bool)
| JNum (z : Z)
| JStr (s : string)
| JArr (l : list JSON)
| JObj (m : list (string * JSON)).

(** Objects are Go maps: a key occurs once, and order is irrelevant.
    [obj_get] is [m[k]], [obj_set] is [m[k] = v], [obj_del] is
    [delete(m, k)]. *)
Fixpoint obj_get (k : string) (m : list (string * JSON)) : option JSON :=
  match m with
  | [] => None
  | (k', v) :: m' => if String.eqb k k' then Some v else obj_get k m'
  end.

Fixpoint obj_set (k : string) (v : JSON) (m : list (string * JSON))
  : list (string * JSON) :=
  match m with
  | [] => [(k, v)]
  | (k', v') :: m' =>
      if String.eqb k k' then (k, v) :: m' else (k', v') :: obj_set k v m'
  end.

Fixpoint obj_del (k : string) (m : list (string * JSON))
  : list (string * JSON) :=
  match m with
  | [] => []
  | (k', v') :: m' =>
      if String.eqb k k' then obj_del k m' else (k', v') :: obj_del k m'
  end.

(** [reflect.DeepEqual] on JSON trees: maps are compared as maps (same
    size, and every key of the first bound to a deeply equal value in the
    second), slices element by element. *)
Fixpoint DeepEqual (a b : JSON) : bool :=
  match a, b with
  | JNull, JNull => true
  | JBool x, JBool y => Bool.eqb x y
  | JNum x, JNum y => Z.eqb x y
  | JStr x, JStr y => String.eqb x y
  | JArr xs, JArr ys =>
      (fix go (xs ys : list JSON) : bool :=
         match xs, ys with
         | [], [] => true
         | x :: xs', y :: ys' => DeepEqual x y && go xs' ys'
         | _, _ => false
         end) xs ys
  | JObj m, JObj n =>
      Nat.eqb (length m) (length n) &&
      (fix go (m : list (string * JSON)) : bool :=
         match m with
         | [] => true
         | (k, v) :: m' =>
             match obj_get k n with
             | Some w => DeepEqual v w
             | None => false
             end && go m'
         end) m
  | _, _ => false
  end.

(** *** The [unstructured] helpers of apimachinery *)

(** Result of a nested read: the Go triple (value, found, err). *)
Inductive Nested (A : Type) :=
| NFound (a : A)
| NMissing
| NErr (e : Error).
Arguments NFound {A} a.
Arguments NMissing {A}.
Arguments NErr {A} e.

(** [unstructured.NestedFieldNoCopy]: a nil value on the way or a missing
    key is "not found"; a value on the way that is not a map is an
    error. *)
Fixpoint NestedFieldNoCopy (val : JSON) (fields : list string) : Nested JSON :=
  match fields with
  | [] => NFound val
  | f :: fields' =>
      match val with
      | JNull => NMissing
      | JObj m =>
          match obj_get f m with
          | Some v => NestedFieldNoCopy v fields'
          | None => NMissing
          end
      | _ => NErr "accessor error: value is not a map"
      end
  end.

(** [unstructured.NestedString] *)
Definition NestedString (obj : JSON) (fields : list string) : Nested string :=
  match NestedFieldNoCopy obj fields with
  | NFound (JStr s) => NFound s
  | NFound _ => NErr "accessor error: value is not a string"
  | NMissing => NMissing
  | NErr e => NErr e
  end.

Fixpoint allStrings (l : list JSON) : option (list string) :=
  match l with
  | [] => Some []
  | JStr s :: l' =>
      match allStrings l' with
      | Some r => Some (s :: r)
      | None => None
      end
  | _ :: _ => None
  end.

(** [unstructured.NestedStringSlice] *)
Definition NestedStringSlice (obj : JSON) (fields : list string)
  : Nested (list string) :=
  match NestedFieldNoCopy obj fields with
  | NFound (JArr l) =>
      match allStrings l with
      | Some r => NFound r
      | None => NErr "accessor error: element is not a string"
      end
  | NFound _ => NErr "accessor error: value is not a slice"
  | NMissing => NMissing
  | NErr e => NErr e
  end.

(** [unstructured.SetNestedField]: missing maps on the way are created; a
    value on the way that is not a map is an error. *)
Fixpoint setNested (m : list (string * JSON)) (v : JSON) (f : string)
  (fields : list string) : Error + list (string * JSON) :=
  match fields with
  | [] => inr (obj_set f v m)
  | f' :: fields' =>
      match obj_get f m with
      | None =>
          match setNested [] v f' fields' with
          | inr sub => inr (obj_set f (JObj sub) m)
          | inl e => inl e
          end
      | Some (JObj sub) =>
          match setNested sub v f' fields' with
          | inr sub' => inr (obj_set f (JObj sub') m)
          | inl e => inl e
          end
      | Some _ => inl "value cannot be set because a field is not a map"
      end
  end.

Definition SetNestedField (obj : JSON) (v : JSON) (fields : list string)
  : Error + JSON :=
  match obj, fields with
  | JObj m, f :: fields' =>
      match setNested m v f fields' with
      | inr m' => inr (JObj m')
      | inl e => inl e
      end
  | _, _ => inl "value cannot be set because the object is not a map"
  end.

(** [getNestedString]: the string at the path, or "" in every other case. *)
Definition getNestedString (obj : JSON) (fields : list string) : string :=
  match NestedString obj fields with
  | NFound s => s
  | _ => ""
  end.

Definition GetName (obj : JSON) : string := getNestedString obj ["metadata"; "name"].
Definition GetGenerateName (obj : JSON) : string :=
  getNestedString obj ["metadata"; "generateName"].
Definition GetResourceVersion (obj : JSON) : string :=
  getNestedString obj ["metadata"; "resourceVersion"].

Record OwnerReference := {
  ownerAPIVersion : string;
  ownerKind : string;
  ownerName : string;
}.

Definition extractOwnerReference (v : JSON) : OwnerReference :=
  {| ownerAPIVersion := getNestedString v ["apiVersion"];
     ownerKind := getNestedString v ["kind"];
     ownerName := getNestedString v ["name"] |}.

Definition isMap (v : JSON) : bool :=
  match v with JObj _ => true | _ => false end.

(** [Unstructured.GetOwnerReferences]: entries that are not maps are
    skipped. *)
Definition GetOwnerReferences (obj : JSON) : list OwnerReference :=
  match NestedFieldNoCopy obj ["metadata"; "ownerReferences"] with
  | NFound (JArr l) => map extractOwnerReference (List.filter isMap l)
  | _ => []
  end.

(** ** The regular expressions of the correlation check

    [messageIncludesSubscription] assembles its pattern from fixed
    operators and from texts passed through [regexp.QuoteMeta], whose
    contract is that the quoted text matches itself literally.  The
    pattern is therefore kept as a syntax tree in which a quoted text is
    a [Lit] leaf; only the operators the source uses are present. *)

Inductive Regexp :=
| Lit (s : string)          (* literal text, also a [QuoteMeta] result *)
| EndText                   (* [$] without the multi-line flag *)
| PerlSpace                 (* [\s] *)
| Alt (a b : Regexp)        (* [a|b] *)
| Cat (a b : Regexp).       (* [ab] *)

(** The texts left after [p] is stripped from the front of [s]. *)
Fixpoint stripPrefix (p s : string) : option string :=
  match p with
  | EmptyString => Some s
  | String c p' =>
      match s with
      | String d s' => if Ascii.eqb c d then stripPrefix p' s' else None
      | EmptyString => None
      end
  end.

(** [\s] is the class of tab, newline, form feed, carriage return and space. *)
Definition isPerlSpace (c : ascii) : bool :=
  let n := nat_of_ascii c in
  Nat.eqb n 9 || Nat.eqb n 10 || Nat.eqb n 12 || Nat.eqb n 13 || Nat.eqb n 32.

(** Every way [re] can match at the front of [s], as the rest of the text
    after the match. *)
Fixpoint matchFront (re : Regexp) (s : string) : list string :=
  match re with
  | Lit l => match stripPrefix l s with Some r => [r] | None => [] end
  | EndText => match s with EmptyString => [s] | _ => [] end
  | PerlSpace =>
      match s with
      | String c r => if isPerlSpace c then [r] else []
      | EmptyString => []
      end
  | Alt a b => (matchFront a s ++ matchFront b s)%list
  | Cat a b => flat_map (matchFront b) (matchFront a s)
  end.

Definition matchesFront (re : Regexp) (s : string) : bool :=
  match matchFront re s with [] => false | _ => true end.

(** An unanchored search: a match may start at any position, the end of
    the text included. *)
Fixpoint search (re : Regexp) (s : string) : bool :=
  matchesFront re s ||
  match s with
  | EmptyString => false
  | String _ s' => search re s'
  end.

(** The search is byte by byte.  On a message that is valid UTF-8, as the
    API server stores it, this is the search of [regexp], which reads
    the text rune by rune. *)

(** *** When a pattern compiles

    The operators above are always well formed, so the parser of
    [regexp] can only reject the pattern for a literal that is not valid
    UTF-8 ([ErrInvalidUTF8]).  [utf8Valid] follows [utf8.ValidString]. *)

Definition inRange (lo hi n : nat) : bool := Nat.leb lo n && Nat.leb n hi.

Fixpoint utf8ValidFrom (pending : list (nat * nat)) (s : string) : bool :=
  match s with
  | EmptyString => match pending with [] => true | _ => false end
  | String c s' =>
      let n := nat_of_ascii c in
      match pending with
      | (lo, hi) :: pending' => inRange lo hi n && utf8ValidFrom pending' s'
      | [] =>
          if Nat.ltb n 128 then utf8ValidFrom [] s'
          else if inRange 194 223 n then utf8ValidFrom [(128, 191)] s'
          else if Nat.eqb n 224 then utf8ValidFrom [(160, 191); (128, 191)] s'
          else if inRange 225 236 n then utf8ValidFrom [(128, 191); (128, 191)] s'
          else if Nat.eqb n 237 then utf8ValidFrom [(128, 159); (128, 191)] s'
          else if inRange 238 239 n then utf8ValidFrom [(128, 191); (128, 191)] s'
          else if Nat.eqb n 240 then
            utf8ValidFrom [(144, 191); (128, 191); (128, 191)] s'
          else if inRange 241 243 n then
            utf8ValidFrom [(128, 191); (128, 191); (128, 191)] s'
          else if Nat.eqb n 244 then
            utf8ValidFrom [(128, 143); (128, 191); (128, 191)] s'
          else false
      end
  end.

Definition utf8Valid (s : string) : bool := utf8ValidFrom [] s.

Fixpoint compiles (re : Regexp) : bool :=
  match re with
  | Lit l => utf8Valid l
  | EndText | PerlSpace => true
  | Alt a b | Cat a b => compiles a && compiles b
  end.

(** [regexp.MatchString]: an error when the pattern does not compile,
    otherwise whether the text contains a match. *)
Definition MatchString (re : Regexp) (s : string) : bool * option Error :=
  if compiles re then (search re s, None)
  else (false, Some "error parsing regexp: invalid UTF-8").

(** ** Kubernetes and OLM object types *)

Record GroupVersionKind := {
  Group : string;
  Version : string;
  Kind : string;
}.

(** [GroupVersion().String()] *)
Definition GroupVersionString (g : GroupVersionKind) : string :=
  if String.eqb (Group g) "" then Version g else Group g ++ "/" ++ Version g.

Definition namespaceGVK :=
  {| Group := ""; Version := "v1"; Kind := "Namespace" |}.
Definition subscriptionGVK :=
  {| Group := "operators.coreos.com"; Version := "v1alpha1"; Kind := "Subscription" |}.
Definition operatorGroupGVK :=
  {| Group := "operators.coreos.com"; Version := "v1"; Kind := "OperatorGroup" |}.
Definition clusterServiceVersionGVK :=
  {| Group := "operators.coreos.com"; Version := "v1alpha1";
     Kind := "ClusterServiceVersion" |}.
Definition deploymentGVK :=
  {| Group := "apps"; Version := "v1"; Kind := "Deployment" |}.
Definition catalogSrcGVK :=
  {| Group := "operators.coreos.com"; Version := "v1alpha1"; Kind := "CatalogSource" |}.
Definition installPlanGVK :=
  {| Group := "operators.coreos.com"; Version := "v1alpha1"; Kind := "InstallPlan" |}.

Definition GVK_eqb (a b : GroupVersionKind) : bool :=
  String.eqb (Group a) (Group b) && String.eqb (Version a) (Version b)
  && String.eqb (Kind a) (Kind b).

Definition CatalogSourceReady : string := "READY".

(** Condition statuses are strings in Go. *)
Definition ConditionTrue : string := "True".
Definition ConditionFalse : string := "False".
Definition ConditionUnknown : string := "Unknown".

(** A [metav1.Time]; [None] is the zero time or a nil pointer. *)
Definition Time := option Z.

(** [metav1.Condition] *)
Record Condition := {
  condType : string;
  condStatus : string;
  condReason : string;
  condMessage : string;
  condLastTransitionTime : Time;
}.

(** [operatorv1alpha1.SubscriptionSpec] *)
Record SubscriptionSpec := {
  CatalogSource : string;
  CatalogSourceNamespace : string;
  Package : string;
  Channel : string;
  StartingCSV : string;
  InstallPlanApproval : string;
  Config : option JSON;
}.

Definition ApprovalManual : string := "Manual".

Record SubscriptionCondition := {
  scType : string;
  scStatus : string;
  scReason : string;
  scMessage : string;
  scLastTransitionTime : Time;
}.

Record SubscriptionStatus := {
  InstalledCSV : string;
  InstallPlanRef : option string;      (* the name in the object reference *)
  Conditions : list SubscriptionCondition;
}.

(** [operatorv1alpha1.Subscription].  [Spec] is a pointer in Go; it is
    set by [buildSubscription], and the CRD requires it on every stored
    object, so it is kept as a plain field. *)
Record Subscription := {
  subGVK : GroupVersionKind;
  subName : string;
  subNamespace : string;
  Spec : SubscriptionSpec;
  Status : SubscriptionStatus;
}.

Definition SubscriptionResolutionFailed : string := "ResolutionFailed".

(** [SubscriptionStatus.GetCondition] *)
Fixpoint GetCondition (conds : list SubscriptionCondition) (t : string)
  : SubscriptionCondition :=
  match conds with
  | [] => {| scType := t; scStatus := ConditionUnknown; scReason := "";
             scMessage := ""; scLastTransitionTime := None |}
  | c :: conds' => if String.eqb (scType c) t then c else GetCondition conds' t
  end.

(** [operatorv1.OperatorGroupSpec] *)
Record OperatorGroupSpec := {
  Selector : option JSON;
  TargetNamespaces : list string;
  ServiceAccountName : string;
  StaticProvidedAPIs : bool;
  UpgradeStrategy : string;
}.

Definition emptyOperatorGroupSpec : OperatorGroupSpec :=
  {| Selector := None; TargetNamespaces := []; ServiceAccountName := "";
     StaticProvidedAPIs := false; UpgradeStrategy := "" |}.

(** [operatorv1.OperatorGroup] *)
Record OperatorGroup := {
  ogGVK : GroupVersionKind;
  ogName : string;
  ogGenerateName : string;
  ogNamespace : string;
  ogResourceVersion : string;
  ogSpec : OperatorGroupSpec;
}.

(** [operatorv1alpha1.ClusterServiceVersion], with the fields read here. *)
Record ClusterServiceVersion := {
  csvName : string;
  csvNamespace : string;
  DeploymentSpecs : list string;       (* the names of the deployment specs *)
  csvPhase : string;
  csvReason : string;
  csvMessage : string;
}.

(** [appsv1.Deployment].  [UnavailableReplicas] is an [int32]. *)
Record Deployment := {
  depName : string;
  depNamespace : string;
  UnavailableReplicas : Z;
}.

(** [operatorv1alpha1.CatalogSource]: [GRPCConnectionState] is a pointer,
    and [LastObservedState] the field read through it. *)
Record CatalogSource_ := {
  GRPCConnectionState : option string;
}.

(** ** The policy *)

(** Modelled from the spec: the type [RemediationAction] is declared in
    the API package, which is not among the sources; the spec gives the
    remediation mode as one of inform and enforce. *)
Inductive RemediationAction_ := Inform | Enforce.

Definition IsInform (r : RemediationAction_) : bool :=
  match r with Inform => true | Enforce => false end.
Definition IsEnforce (r : RemediationAction_) : bool :=
  match r with Enforce => true | Inform => false end.

(** The bytes of a [runtime.RawExtension], as the JSON value they
    decode to; [None] when they are not JSON. *)
Definition RawExtension := option JSON.

Record OperatorPolicy := {
  polNamespace : string;
  polName : string;
  RemediationAction : RemediationAction_;
  ComplianceType : string;
  SpecSubscription : RawExtension;
  SpecOperatorGroup : option RawExtension;  (* a pointer: [None] is nil *)
  Versions : list string;
}.

(** ** Status helpers, kept as the calls the source makes

    The condition and related-object constructors are defined in the
    status file of the package.  A status update is recorded as the
    constructor the reconciler called and the arguments it passed. *)

(** The [client.Object] handed to a related-object constructor. *)
Inductive Object :=
| OperatorGroupObject (og : OperatorGroup)
| SubscriptionObject (s : Subscription)
| UnstructuredObject (u : JSON).

Inductive RelatedObject :=
| missingWantedObj (o : Object)
| createdObj (o : Object)
| matchedObj (o : Object)
| mismatchedObj (o : Object)
| updatedObj (o : Object)
| nonCompObj (o : Object) (reason : string)
| opGroupTooManyObj (u : JSON)
| noInstallPlansObj (namespace : string)
| existingInstallPlanObj (ip : JSON) (phase : string)
| noExistingCSVObj
| missingCSVObj (name namespace : string)
| existingCSVObj (csv : ClusterServiceVersion)
| noExistingDeploymentObj
| missingDeploymentObj (name namespace : string)
| existingDeploymentObj (dep : Deployment)
| catalogSrcUnknownObj (name namespace : string)
| catalogSourceObj (name namespace : string) (isUnhealthy isMissing : bool).

(** Modelled from the spec: [opGroupTooManyObjs] is in the status file,
    which is not among the sources; the spec has every found operator
    group listed as a related object, and the end-to-end expectations
    give each of them the same NonCompliant reason. *)
Definition opGroupTooManyObjs (opGroups : list JSON) : list RelatedObject :=
  map opGroupTooManyObj opGroups.

Inductive CondSpec :=
| validationCond (validationErrors : list Error)
| invalidCausingUnknownCond (kind : string)
| missingWantedCond (kind : string)
| createdCond (kind : string)
| matchesCond (kind : string)
| mismatchCond (kind : string)
| mismatchCondUnfixable (kind : string)
| updatedCond (kind : string)
| opGroupPreexistingCond
| opGroupTooManyCond
| literalCond (c : Condition)      (* a [metav1.Condition{...}] written in place *)
| noInstallPlansCond
| installPlanFailed
| installPlanInstallingCond
| installPlansNoApprovals
| installPlanUpgradeCond (versions : list string) (approvableIPs : list JSON)
| installPlanApprovedCond (version : string)
| noCSVCond
| buildCSVCond (csv : ClusterServiceVersion)
| noDeploymentsCond
| buildDeploymentCond (depsExist : bool) (unavailableDeps : list Deployment)
| catalogSourceUnknownCond
| catalogSourceFindCond (isUnhealthy isMissing : bool) (name : string).

(** Modelled from the spec: the constant [subConditionType] is in the
    status file; the end-to-end expectations name the subscription
    condition type. *)
Definition subConditionType : string := "SubscriptionCompliant".

(** One call [updateStatus(policy, cond, relatedObjects...)]. *)
Definition StatusUpdate : Type := CondSpec * list RelatedObject.

(** [calculateComplianceCondition(policy)] reads the status of the policy,
    which is the sequence of updates made so far. *)
Inductive ComplianceEvent :=
| calculateComplianceCondition (status : list StatusUpdate).

(** ** State of a run and its environment *)

(** The address of the content of an unstructured object.  A pointer to
    an object, and the copies of the struct that share its map, as the
    elements of a list do, are that address. *)
Definition loc := nat.

(** What the client answers to an update. *)
Inductive UpdateReply :=
| Updated (stored : JSON)    (* success; the client writes the answer into the
                                object that was passed *)
| Forbidden (e : Error)      (* an error with [k8serrors.IsForbidden] *)
| Failed (e : Error).        (* any other error *)

Definition replyErr (r : UpdateReply) : option Error :=
  match r with
  | Updated _ => None
  | Forbidden e | Failed e => Some e
  end.

(** Requests sent to the cluster during a run. *)
Inductive Request :=
| ReqCreateOperatorGroup (og : OperatorGroup)
| ReqCreateSubscription (s : Subscription)
| ReqUpdate (obj : JSON)
| ReqDryRunUpdate (obj : JSON)
| ReqStatusUpdate (status : list StatusUpdate)
| ReqEvent (ev : ComplianceEvent).

(** The requests that ask for a change of a cluster object other than the
    policy: a dry run persists nothing, and status updates and events
    concern the policy itself. *)
Definition isMutation (r : Request) : bool :=
  match r with
  | ReqCreateOperatorGroup _ | ReqCreateSubscription _ | ReqUpdate _ => true
  | ReqDryRunUpdate _ | ReqStatusUpdate _ | ReqEvent _ => false
  end.

Record State := {
  heap : list JSON;                 (* unstructured objects, by pointer *)
  requests : list Request;          (* oldest first *)
  status : list StatusUpdate;       (* the status of the policy, oldest first *)
}.

Inductive PolicyLookup :=
| PolicyFound (policy : OperatorPolicy)
| PolicyNotFound (e : Error)
| PolicyLookupFailed (e : Error).

Record Env := {
  (* the reconciler's own fields *)
  DefaultNamespace : string;
  (* [depclient.DynamicWatcher]; objects are returned as pointers into
     the watch cache *)
  watcherGet : GroupVersionKind -> string -> string -> Error + option loc;
  watcherList : GroupVersionKind -> string -> Error + list loc;
  StartQueryBatch : option Error;
  EndQueryBatch : option Error;
  RemoveWatcher : option Error;
  (* [client.Client] *)
  clientGetPolicy : string -> string -> PolicyLookup;
  clientCreateOperatorGroup : OperatorGroup -> Error + OperatorGroup;
  clientCreateSubscription : Subscription -> Error + Subscription;
  clientUpdate : JSON -> UpdateReply;
  clientDryRunUpdate : JSON -> UpdateReply;
  clientStatusUpdate : list StatusUpdate -> option Error;
  (* helpers of the package defined in other files *)
  statusChanged : list StatusUpdate -> CondSpec -> list RelatedObject -> bool;
  emitComplianceEvent : ComplianceEvent -> option Error;
  handleKeys : JSON -> JSON -> JSON -> string -> JSON * string * bool;
  removeFieldsForComparison : JSON -> JSON;
  (* decoders and converters of the libraries *)
  decodeSubscriptionSpec : JSON -> Error + SubscriptionSpec;
  decodeOperatorGroupSpec : JSON -> Error + OperatorGroupSpec;
  operatorGroupToUnstructured : OperatorGroup -> Error + JSON;
  subscriptionToUnstructured : Subscription -> Error + JSON;
  subscriptionFromUnstructured : JSON -> Error + Subscription;
  csvFromUnstructured : JSON -> Error + ClusterServiceVersion;
  deploymentFromUnstructured : JSON -> Error + Deployment;
  catalogSourceFromUnstructured : JSON -> Error + CatalogSource_;
}.

(** *** A state monad for the reconcilers *)

Definition M (A : Type) : Type := State -> A * State.

Definition ret {A} (a : A) : M A := fun st => (a, st).

Definition bind {A B} (m : M A) (k : A -> M B) : M B :=
  fun st => let (a, st') := m st in k a st'.

Declare Scope go_scope.
Delimit Scope go_scope with go.
Notation "x <- m ;; k" := (bind m (fun x => k))
  (at level 100, m at next level, right associativity) : go_scope.
Notation "m ;;; k" := (bind m (fun _ => k))
  (at level 100, right associativity) : go_scope.
Local Open Scope go_scope.

(** Reading through a pointer; a pointer is always valid in Go, and an
    address outside the heap reads as nil here. *)
Definition deref (h : list JSON) (l : loc) : JSON :=
  match h !! l with
  | Some v => v
  | None => JNull
  end.

Definition load (l : loc) : M JSON :=
  fun st => (deref (heap st) l, st).

Definition store (l : loc) (v : JSON) : M unit :=
  fun st => (tt, {| heap := <[l := v]> (heap st);
                    requests := requests st; status := status st |}).

(** [obj.DeepCopy()]: a new object with the same content. *)
Definition DeepCopy (l : loc) : M loc :=
  fun st =>
    let v := deref (heap st) l in
    (length (heap st),
     {| heap := heap st ++ [v]; requests := requests st; status := status st |}).

Definition send (r : Request) : M unit :=
  fun st => (tt, {| heap := heap st; requests := requests st ++ [r];
                    status := status st |}).

(** ** Validation helpers *)

Definition isLowerAlnum (c : ascii) : bool :=
  let n := nat_of_ascii c in inRange 97 122 n || inRange 48 57 n.

Definition isLabelChar (c : ascii) : bool :=
  isLowerAlnum c || Nat.eqb (nat_of_ascii c) 45.

Fixpoint allChars (p : ascii -> bool) (s : string) : bool :=
  match s with
  | EmptyString => true
  | String c s' => p c && allChars p s'
  end.

Fixpoint lastChar (s : string) : option ascii :=
  match s with
  | EmptyString => None
  | String c EmptyString => Some c
  | String _ s' => lastChar s'
  end.

(** [len(validation.IsDNS1123Label(value)) == 0]: at most 63 characters
    that match [[a-z0-9]([-a-z0-9]*[a-z0-9])?]. *)
Definition IsDNS1123Label (value : string) : bool :=
  Nat.leb (String.length value) 63 &&
  match value with
  | EmptyString => false
  | String c _ =>
      isLowerAlnum c && allChars isLabelChar value &&
      match lastChar value with
      | Some d => isLowerAlnum d
      | None => false
      end
  end.

(** [json.Unmarshal(raw, &m)] for an empty map [m]: an object fills the
    map, [null] leaves it empty, anything else is an error. *)
Definition unmarshalMap (raw : RawExtension) : Error + list (string * JSON) :=
  match raw with
  | None => inl "unexpected end of JSON input"
  | Some (JObj m) => inr m
  | Some JNull => inr []
  | Some _ => inl "json: cannot unmarshal value into Go value of type map[string]interface {}"
  end.

(** [m[k].(string)] *)
Definition getString (k : string) (m : list (string * JSON)) : option string :=
  match obj_get k m with
  | Some (JStr s) => Some s
  | _ => None
  end.

Definition setInstallPlanApproval (a : string) (spec : SubscriptionSpec)
  : SubscriptionSpec :=
  {| CatalogSource := CatalogSource spec;
     CatalogSourceNamespace := CatalogSourceNamespace spec;
     Package := Package spec;
     Channel := Channel spec;
     StartingCSV := StartingCSV spec;
     InstallPlanApproval := a;
     Config := Config spec |}.

Definition emptySubscriptionStatus : SubscriptionStatus :=
  {| InstalledCSV := ""; InstallPlanRef := None; Conditions := [] |}.

Section Reconciler.

Variable E : Env.

(** ** Desired-state builders *)

(** [buildSubscription].  [json.Marshal] of a map that [json.Unmarshal]
    produced cannot fail, so the second "invalid" return between the two
    has no counterpart. *)
Definition buildSubscription (policy : OperatorPolicy) (defaultNS : string)
  : option Subscription * option Error :=
  match unmarshalMap (SpecSubscription policy) with
  | inl err =>
      (None, Some (wrapErr "the policy spec.subscription is invalid" err))
  | inr sub =>
      let nsOk :=
        match getString "namespace" sub with
        | Some ns => Some ns
        | None => if String.eqb defaultNS "" then None else Some defaultNS
        end in
      match nsOk with
      | None => (None, Some "namespace is required in spec.subscription")
      | Some ns =>
          if negb (IsDNS1123Label ns) then
            (None, Some ("the namespace '" ++ ns ++
               "' used for the subscription is not a valid namespace identifier"))
          else
            match decodeSubscriptionSpec E (JObj (obj_del "namespace" sub)) with
            | inl err =>
                (None, Some (wrapErr "the policy spec.subscription is invalid" err))
            | inr spec =>
                if negb (String.eqb (InstallPlanApproval spec) "Manual"
                         || String.eqb (InstallPlanApproval spec) "Automatic")
                then
                  (None, Some ("the policy spec.subscription.installPlanApproval ('"
                     ++ InstallPlanApproval spec ++
                     "') is invalid: must be 'Automatic' or 'Manual'"))
                else
                  let spec' :=
                    if IsEnforce (RemediationAction policy)
                       && Nat.ltb 0 (length (Versions policy))
                    then setInstallPlanApproval ApprovalManual spec
                    else spec in
                  (Some {| subGVK := subscriptionGVK;
                           subName := Package spec;
                           subNamespace := ns;
                           Spec := spec';
                           Status := emptySubscriptionStatus |}, None)
            end
      end
  end.

(** [buildOperatorGroup] *)
Definition buildOperatorGroup (policy : OperatorPolicy) (namespace : string)
  : option OperatorGroup * option Error :=
  match SpecOperatorGroup policy with
  | None =>
      (Some {| ogGVK := operatorGroupGVK; ogName := "";
               ogGenerateName := namespace ++ "-"; ogNamespace := namespace;
               ogResourceVersion := ""; ogSpec := emptyOperatorGroupSpec |}, None)
  | Some raw =>
      match unmarshalMap raw with
      | inl err =>
          (None, Some (wrapErr "the policy spec.operatorGroup is invalid" err))
      | inr opGroup =>
          let nsMismatch :=
            match getString "namespace" opGroup with
            | Some specifiedNS =>
                negb (String.eqb specifiedNS "")
                && negb (String.eqb specifiedNS namespace)
                && negb (String.eqb namespace "")
            | None => false
            end in
          if nsMismatch then
            (None, Some ("the namespace specified in spec.operatorGroup ('"
               ++ default "" (getString "namespace" opGroup)
               ++ "') must match the namespace used for the subscription ('"
               ++ namespace ++ "')"))
          else
            match getString "name" opGroup with
            | None => (None, Some "name is required in spec.operatorGroup")
            | Some name =>
                match decodeOperatorGroupSpec E
                        (JObj (obj_del "namespace" (obj_del "name" opGroup))) with
                | inl err =>
                    (None,
                     Some (wrapErr "the policy spec.operatorGroup is invalid" err))
                | inr spec =>
                    (Some {| ogGVK := operatorGroupGVK; ogName := name;
                             ogGenerateName := ""; ogNamespace := namespace;
                             ogResourceVersion := ""; ogSpec := spec |}, None)
                end
            end
      end
  end.

(** [updateStatus(policy, cond, relatedObjects...)]: the update is
    appended to the status, and the helper reports whether the status
    changed. *)
Definition updateStatus (cond : CondSpec) (relObjs : list RelatedObject) : M bool :=
  fun st =>
    (statusChanged E (status st) cond relObjs,
     {| heap := heap st; requests := requests st;
        status := status st ++ [(cond, relObjs)] |}).

Definition optList {A} (o : option A) : list A :=
  match o with Some a => [a] | None => [] end.

(** [buildResources] *)
Definition buildResources (policy : OperatorPolicy)
  : M (option Subscription * option OperatorGroup * bool * option Error) :=
  let (sub, subErr) := buildSubscription policy (DefaultNamespace E) in
  let opGroupNS :=
    match sub with
    | Some s =>
        if negb (String.eqb (subNamespace s) "") then subNamespace s
        else DefaultNamespace E
    | None => DefaultNamespace E
    end in
  let (opGroup, ogErr) := buildOperatorGroup policy opGroupNS in
  match watcherGet E namespaceGVK "" opGroupNS with
  | inl err =>
      ret (sub, opGroup, false,
           Some (wrapErr "error getting operator namespace" err))
  | inr gotNamespace =>
      let nsErr :=
        match gotNamespace with
        | None => ["the operator namespace ('" ++ opGroupNS ++ "') does not exist"]
        | Some _ => []
        end in
      changed <- updateStatus
                   (validationCond (optList subErr ++ optList ogErr ++ nsErr)) [] ;;
      ret (sub, opGroup, changed, None)
  end.

(** ** Client calls on unstructured objects *)

(** [r.Update(ctx, obj)] on a pointer: on success the client decodes the
    answer of the server into [obj]. *)
Definition Update (obj : loc) : M (option Error) :=
  v <- load obj ;;
  send (ReqUpdate v) ;;;
  match clientUpdate E v with
  | Updated v' => store obj v' ;;; ret None
  | r => ret (replyErr r)
  end.

(** [r.Update(ctx, &objs[i])] on an element of a slice of structs.  The
    element shares its map with the object it was copied from; on
    success the client decodes the answer into a new map, which it gives
    to the element, and the shared map keeps its content. *)
Definition UpdateCopy (obj : loc) : M (option Error) :=
  v <- load obj ;;
  send (ReqUpdate v) ;;;
  match clientUpdate E v with
  | Updated v' =>
      fun st => (None, {| heap := heap st ++ [v']; requests := requests st;
                          status := status st |})
  | r => ret (replyErr r)
  end.

(** [r.Update(ctx, obj, client.DryRunAll)] *)
Definition DryRunUpdate (obj : loc) : M UpdateReply :=
  v <- load obj ;;
  send (ReqDryRunUpdate v) ;;;
  match clientDryRunUpdate E v with
  | Updated v' => store obj v' ;;; ret (Updated v')
  | r => ret r
  end.

(** [Unstructured.SetGroupVersionKind]: a nil object becomes a map. *)
Definition SetGroupVersionKind (gvk : GroupVersionKind) (v : JSON) : JSON :=
  let m := match v with JObj m => m | _ => [] end in
  JObj (obj_set "kind" (JStr (Kind gvk))
          (obj_set "apiVersion" (JStr (GroupVersionString gvk)) m)).

(** ** The merge engine *)

(** [mergeObjects].  [handleKeys] receives the desired object, the
    existing object, which it merges into in place, and the stripped
    copy, which it reads. *)
Definition mergeObjects (desired : JSON) (existing : loc) (complianceType : string)
  : M (bool * bool * option Error) :=
  existingObjectCopy <- DeepCopy existing ;;
  c <- load existingObjectCopy ;;
  store existingObjectCopy (removeFieldsForComparison E c) ;;;
  ex <- load existing ;;
  copy <- load existingObjectCopy ;;
  let '(merged, errMsg, updateNeeded) := handleKeys E desired ex copy complianceType in
  store existing merged ;;;
  if negb (String.eqb errMsg "") then ret (updateNeeded, false, Some errMsg)
  else if updateNeeded then
    reply <- DryRunUpdate existing ;;
    match reply with
    | Forbidden _ => ret (true, true, None)
    | Failed err => ret (updateNeeded, false, Some err)
    | Updated _ =>
        ex' <- load existing ;;
        store existing (removeFieldsForComparison E ex') ;;;
        ex'' <- load existing ;;
        copy' <- load existingObjectCopy ;;
        if DeepEqual ex'' copy' then ret (false, false, None)
        else ret (updateNeeded, false, None)
    end
  else ret (updateNeeded, false, None).

(** ** Operator group *)

Definition setOGGVK (og : OperatorGroup) : OperatorGroup :=
  {| ogGVK := operatorGroupGVK; ogName := ogName og;
     ogGenerateName := ogGenerateName og; ogNamespace := ogNamespace og;
     ogResourceVersion := ogResourceVersion og; ogSpec := ogSpec og |}.

Definition setOGResourceVersion (rv : string) (og : OperatorGroup) : OperatorGroup :=
  {| ogGVK := ogGVK og; ogName := ogName og;
     ogGenerateName := ogGenerateName og; ogNamespace := ogNamespace og;
     ogResourceVersion := rv; ogSpec := ogSpec og |}.

Definition isNil {A} (o : option A) : bool :=
  match o with None => true | Some _ => false end.

(** The event list built after a status change in enforce mode. *)
Definition earlyCondsIf (changed : bool) : M (list ComplianceEvent) :=
  fun st =>
    (if changed then [calculateComplianceCondition (status st)] else [], st).

(** [handleOpGroup], the case of exactly one operator group found. *)
Definition handleOpGroupOne (policy : OperatorPolicy) (desiredOpGroup : OperatorGroup)
  (found : loc) : M (list ComplianceEvent * bool * option Error) :=
  opGroup <- load found ;;
  let emptyNameMatch :=
    String.eqb (ogName desiredOpGroup) ""
    && String.eqb (GetGenerateName opGroup) (ogGenerateName desiredOpGroup) in
  if negb (String.eqb (GetName opGroup) (ogName desiredOpGroup) || emptyNameMatch)
  then
    if isNil (SpecOperatorGroup policy) then
      changed <- updateStatus opGroupPreexistingCond
                   [matchedObj (UnstructuredObject opGroup)] ;;
      ret ([], changed, None)
    else
      changed <- updateStatus (mismatchCond "OperatorGroup")
                   [missingWantedObj (OperatorGroupObject desiredOpGroup);
                    mismatchedObj (UnstructuredObject opGroup)] ;;
      ret ([], changed, None)
  else
    match operatorGroupToUnstructured E desiredOpGroup with
    | inl err =>
        ret ([], false,
             Some (wrapErr "error converting desired OperatorGroup to an Unstructured" err))
    | inr desiredUnstruct =>
        merged <- DeepCopy found ;;
        r <- mergeObjects desiredUnstruct merged (ComplianceType policy) ;;
        let '(updateNeeded, skipUpdate, err) := r in
        opGroup <- load found ;;
        match err with
        | Some err =>
            ret ([], false,
                 Some (wrapErr "error checking if the OperatorGroup needs an update" err))
        | None =>
            if negb updateNeeded then
              changed <- updateStatus (matchesCond "OperatorGroup")
                           [matchedObj (UnstructuredObject opGroup)] ;;
              ret ([], changed, None)
            else if isNil (SpecOperatorGroup policy) then
              changed <- updateStatus opGroupPreexistingCond
                           [matchedObj (UnstructuredObject opGroup)] ;;
              ret ([], changed, None)
            else if IsEnforce (RemediationAction policy) && skipUpdate then
              changed <- updateStatus (mismatchCondUnfixable "OperatorGroup")
                           [mismatchedObj (UnstructuredObject opGroup)] ;;
              ret ([], changed, None)
            else
              changed <- updateStatus (mismatchCond "OperatorGroup")
                           [mismatchedObj (UnstructuredObject opGroup)] ;;
              if IsInform (RemediationAction policy) then ret ([], changed, None)
              else
                earlyConds <- earlyCondsIf changed ;;
                let desired' :=
                  setOGResourceVersion (GetResourceVersion opGroup) desiredOpGroup in
                err <- Update merged ;;
                match err with
                | Some err =>
                    ret ([], changed,
                         Some (wrapErr "error updating the OperatorGroup" err))
                | None =>
                    updateStatus (updatedCond "OperatorGroup")
                      [updatedObj (OperatorGroupObject (setOGGVK desired'))] ;;;
                    ret (earlyConds, true, None)
                end
        end
    end.

Fixpoint loadAll (ls : list loc) : M (list JSON) :=
  match ls with
  | [] => ret []
  | l :: ls' => v <- load l ;; vs <- loadAll ls' ;; ret (v :: vs)
  end.

(** [handleOpGroup] *)
Definition handleOpGroup (policy : OperatorPolicy) (desiredOpGroup : option OperatorGroup)
  : M (list ComplianceEvent * bool * option Error) :=
  match desiredOpGroup with
  | None =>
      changed <- updateStatus (invalidCausingUnknownCond "OperatorGroup") [] ;;
      ret ([], changed, None)
  | Some desired =>
      if String.eqb (ogNamespace desired) "" then
        changed <- updateStatus (invalidCausingUnknownCond "OperatorGroup") [] ;;
        ret ([], changed, None)
      else
        match watcherList E operatorGroupGVK (ogNamespace desired) with
        | inl err =>
            ret ([], false, Some (wrapErr "error listing OperatorGroups" err))
        | inr [] =>
            changed <- updateStatus (missingWantedCond "OperatorGroup")
                         [missingWantedObj (OperatorGroupObject desired)] ;;
            if IsInform (RemediationAction policy) then ret ([], changed, None)
            else
              earlyConds <- earlyCondsIf changed ;;
              send (ReqCreateOperatorGroup desired) ;;;
              match clientCreateOperatorGroup E desired with
              | inl err =>
                  ret ([], changed,
                       Some (wrapErr "error creating the OperatorGroup" err))
              | inr created =>
                  updateStatus (createdCond "OperatorGroup")
                    [createdObj (OperatorGroupObject (setOGGVK created))] ;;;
                  ret (earlyConds, true, None)
              end
        | inr [found] => handleOpGroupOne policy desired found
        | inr foundOpGroups =>
            objs <- loadAll foundOpGroups ;;
            changed <- updateStatus opGroupTooManyCond (opGroupTooManyObjs objs) ;;
            ret ([], changed, None)
        end
  end.

(** ** Subscription *)

(** [messageIncludesSubscription]: the pattern
    [(?:subscription (?:N|NS\/N)|package (?:P|NS\/P))(?:$|\s|,|:)] where
    [N], [NS] and [P] are the quoted name, namespace and package. *)
Definition subscriptionRegexp (subscription : Subscription) : Regexp :=
  let safeNs := subNamespace subscription in
  let safeSubName := subName subscription in
  let safeSubNameWithNs := safeNs ++ "/" ++ safeSubName in
  let safePackageName := Package (Spec subscription) in
  let safePackageNameWithNs := safeNs ++ "/" ++ safePackageName in
  Cat (Alt (Cat (Lit "subscription ")
                (Alt (Lit safeSubName) (Lit safeSubNameWithNs)))
           (Cat (Lit "package ")
                (Alt (Lit safePackageName) (Lit safePackageNameWithNs))))
      (Alt EndText (Alt PerlSpace (Alt (Lit ",") (Lit ":")))).

Definition messageIncludesSubscription (subscription : Subscription) (message : string)
  : bool * option Error :=
  MatchString (subscriptionRegexp subscription) message.

Definition isSome {A} (o : option A) : bool :=
  match o with Some _ => true | None => false end.

(** [mergedSub.Status.GetCondition(SubscriptionResolutionFailed)] *)
Definition resolutionFailure (mergedSub : Subscription) : SubscriptionCondition :=
  GetCondition (Conditions (Status mergedSub)) SubscriptionResolutionFailed.

(** [handleSubscription], once the subscription is found and the merge
    engine has answered that no update is needed. *)
Definition handleSubscriptionMatched (mergedSub : Subscription) (foundSub : loc)
  : M (option Subscription * list ComplianceEvent * bool * option Error) :=
  let subResFailed := resolutionFailure mergedSub in
  found <- load foundSub ;;
  let includesSubscription :=
    if String.eqb (scStatus subResFailed) ConditionTrue then
      let (includes, err) :=
        messageIncludesSubscription mergedSub (scMessage subResFailed) in
      if isSome err then true else includes
    else false in
  if includesSubscription then
    let cond :=
      {| condType := subConditionType;
         condStatus := ConditionFalse;
         condReason := scReason subResFailed;
         condMessage := scMessage subResFailed;
         condLastTransitionTime := scLastTransitionTime subResFailed |} in
    changed <- updateStatus (literalCond cond)
                 [nonCompObj (UnstructuredObject found) (scReason subResFailed)] ;;
    ret (Some mergedSub, [], changed, None)
  else
    changed <- updateStatus (matchesCond "Subscription")
                 [matchedObj (UnstructuredObject found)] ;;
    ret (Some mergedSub, [], changed, None).

Definition setSubGVK (s : Subscription) : Subscription :=
  {| subGVK := subscriptionGVK; subName := subName s;
     subNamespace := subNamespace s; Spec := Spec s; Status := Status s |}.

(** [handleSubscription] *)
Definition handleSubscription (policy : OperatorPolicy) (desiredSub : option Subscription)
  : M (option Subscription * list ComplianceEvent * bool * option Error) :=
  match desiredSub with
  | None =>
      changed <- updateStatus (invalidCausingUnknownCond "Subscription") [] ;;
      ret (None, [], changed, None)
  | Some desired =>
      match watcherGet E subscriptionGVK (subNamespace desired) (subName desired) with
      | inl err =>
          ret (None, [], false, Some (wrapErr "error getting the Subscription" err))
      | inr None =>
          changed <- updateStatus (missingWantedCond "Subscription")
                       [missingWantedObj (SubscriptionObject desired)] ;;
          if IsInform (RemediationAction policy) then
            ret (Some desired, [], changed, None)
          else
            earlyConds <- earlyCondsIf changed ;;
            send (ReqCreateSubscription desired) ;;;
            match clientCreateSubscription E desired with
            | inl err =>
                ret (None, [], changed,
                     Some (wrapErr "error creating the Subscription" err))
            | inr created =>
                updateStatus (createdCond "Subscription")
                  [createdObj (SubscriptionObject (setSubGVK created))] ;;;
                ret (Some (setSubGVK created), earlyConds, true, None)
            end
      | inr (Some foundSub) =>
          match subscriptionToUnstructured E desired with
          | inl err =>
              ret (None, [], false,
                   Some (wrapErr
                     "error converting desired Subscription to an Unstructured" err))
          | inr desiredUnstruct =>
              merged <- DeepCopy foundSub ;;
              r <- mergeObjects desiredUnstruct merged (ComplianceType policy) ;;
              let '(updateNeeded, skipUpdate, err) := r in
              match err with
              | Some err =>
                  ret (None, [], false,
                       Some (wrapErr
                         "error checking if the Subscription needs an update" err))
              | None =>
                  mergedObj <- load merged ;;
                  match subscriptionFromUnstructured E mergedObj with
                  | inl err =>
                      ret (None, [], false,
                           Some (wrapErr
                             "error converting the retrieved Subscription to the go type"
                             err))
                  | inr mergedSub =>
                      if negb updateNeeded then
                        handleSubscriptionMatched mergedSub foundSub
                      else
                        found <- load foundSub ;;
                        if IsEnforce (RemediationAction policy) && skipUpdate then
                          changed <- updateStatus (mismatchCondUnfixable "Subscription")
                                       [mismatchedObj (UnstructuredObject found)] ;;
                          ret (Some mergedSub, [], changed, None)
                        else
                          changed <- updateStatus (mismatchCond "Subscription")
                                       [mismatchedObj (UnstructuredObject found)] ;;
                          if IsInform (RemediationAction policy) then
                            ret (Some mergedSub, [], changed, None)
                          else
                            earlyConds <- earlyCondsIf changed ;;
                            err <- Update merged ;;
                            match err with
                            | Some err =>
                                ret (Some mergedSub, [], changed,
                                     Some (wrapErr "error updating the Subscription" err))
                            | None =>
                                m <- load merged ;;
                                store merged (SetGroupVersionKind subscriptionGVK m) ;;;
                                m' <- load merged ;;
                                updateStatus (updatedCond "Subscription")
                                  [updatedObj (UnstructuredObject m')] ;;;
                                ret (Some mergedSub, earlyConds, true, None)
                            end
                  end
              end
          end
      end
  end.

(** ** Install plans *)

(** Constants of the OLM API package. *)
Definition InstallPlanPhaseRequiresApproval : string := "RequiresApproval".
Definition InstallPlanPhaseInstalling : string := "Installing".
Definition InstallPlanFailed : string := "InstallPlanFailed".

(** The owner test of the first loop of [handleInstallPlan]. *)
Definition ownerMatches (sub : Subscription) (owner : OwnerReference) : bool :=
  String.eqb (ownerName owner) (subName sub)
  && String.eqb (ownerKind owner) (Kind subscriptionGVK)
  && String.eqb (ownerAPIVersion owner) (GroupVersionString subscriptionGVK).

Definition ownedBy (sub : Subscription) (installPlan : JSON) : bool :=
  existsb (ownerMatches sub) (GetOwnerReferences installPlan).

(** The phase read in the second loop: "" when it is absent or not a
    string. *)
Definition planPhase (installPlan : JSON) : string :=
  match NestedString installPlan ["status"; "phase"] with
  | NFound phase => phase
  | _ => ""
  end.

Definition requiresApproval (installPlan : JSON) : bool :=
  String.eqb (planPhase installPlan) InstallPlanPhaseRequiresApproval.

Definition isInstalling (installPlan : JSON) : bool :=
  String.eqb (planPhase installPlan) InstallPlanPhaseInstalling.

Definition isCurrentFailed (sub : Subscription) (installPlan : JSON) : bool :=
  String.eqb (planPhase installPlan) InstallPlanFailed
  && match InstallPlanRef (Status sub) with
     | Some name => String.eqb name (GetName installPlan)
     | None => false
     end.

(** [fmt.Sprintf("%v", names)] for a slice of strings. *)
Definition formatStrings (names : list string) : string :=
  "[" ++ String.concat " " names ++ "]".

(** An entry of [allUpgradeVersions]. *)
Definition upgradeVersion (installPlan : JSON) : string :=
  match NestedStringSlice installPlan ["spec"; "clusterServiceVersionNames"] with
  | NFound csvNames => formatStrings csvNames
  | _ => formatStrings ["unknown"]
  end.

(** The body of the last loop: the version an install plan would be
    approved for, if it can be approved. *)
Definition approvableVersion (versions : list string) (installPlan : JSON)
  : option string :=
  match NestedStringSlice installPlan ["spec"; "clusterServiceVersionNames"] with
  | NFound [csv] =>
      if Nat.eqb (length versions) 0 || existsb (String.eqb csv) versions
      then Some csv else None
  | _ => None
  end.

Definition isApprovable (versions : list string) (installPlan : JSON) : bool :=
  isSome (approvableVersion versions installPlan).

(** [approvedVersion] after the last loop: the version of the last
    approvable plan, or "". *)
Definition approvedVersionOf (versions : list string) (plans : list JSON) : string :=
  fold_left (fun acc ip => match approvableVersion versions ip with
                           | Some v => v
                           | None => acc
                           end) plans "".

(** Pairs of a pointer and the object read through it. *)
Fixpoint loadPairs (ls : list loc) : M (list (loc * JSON)) :=
  match ls with
  | [] => ret []
  | l :: ls' => v <- load l ;; vs <- loadPairs ls' ;; ret ((l, v) :: vs)
  end.

(** The lists and flags that [handleInstallPlan] computes from the
    install plans found, each plan with its pointer. *)
Definition ownedPlans (sub : Subscription) (foundInstallPlans : list (loc * JSON))
  : list (loc * JSON) :=
  List.filter (fun p => ownedBy sub (snd p)) foundInstallPlans.

Definition relatedPlans (ownedInstallPlans : list (loc * JSON)) : list RelatedObject :=
  map (fun p => existingInstallPlanObj (snd p) (planPhase (snd p))) ownedInstallPlans.

Definition pendingPlans (ownedInstallPlans : list (loc * JSON)) : list (loc * JSON) :=
  List.filter (fun p => requiresApproval (snd p)) ownedInstallPlans.

Definition anyInstalling (ownedInstallPlans : list (loc * JSON)) : bool :=
  existsb (fun p => isInstalling (snd p)) ownedInstallPlans.

Definition currentPlanFailed (sub : Subscription) (ownedInstallPlans : list (loc * JSON))
  : bool :=
  existsb (fun p => isCurrentFailed sub (snd p)) ownedInstallPlans.

Definition upgradeVersions (ipsRequiringApproval : list (loc * JSON)) : list string :=
  map (fun p => upgradeVersion (snd p)) ipsRequiringApproval.

Definition approvablePlans (versions : list string)
  (ipsRequiringApproval : list (loc * JSON)) : list (loc * JSON) :=
  List.filter (fun p => isApprovable versions (snd p)) ipsRequiringApproval.

(** [handleInstallPlan] *)
Definition handleInstallPlan (policy : OperatorPolicy) (sub : option Subscription)
  : M (bool * option Error) :=
  match sub with
  | None =>
      changed <- updateStatus (invalidCausingUnknownCond "InstallPlan") [] ;;
      ret (changed, None)
  | Some sub =>
      match watcherList E installPlanGVK (subNamespace sub) with
      | inl err => ret (false, Some (wrapErr "error listing InstallPlans" err))
      | inr foundInstallPlans =>
          found <- loadPairs foundInstallPlans ;;
          let ownedInstallPlans := ownedPlans sub found in
          match ownedInstallPlans with
          | [] =>
              changed <- updateStatus noInstallPlansCond
                           [noInstallPlansObj (subNamespace sub)] ;;
              ret (changed, None)
          | _ =>
              let relatedInstallPlans := relatedPlans ownedInstallPlans in
              let ipsRequiringApproval := pendingPlans ownedInstallPlans in
              if currentPlanFailed sub ownedInstallPlans then
                changed <- updateStatus installPlanFailed relatedInstallPlans ;;
                ret (changed, None)
              else if anyInstalling ownedInstallPlans then
                changed <- updateStatus installPlanInstallingCond relatedInstallPlans ;;
                ret (changed, None)
              else
                match ipsRequiringApproval with
                | [] =>
                    changed <- updateStatus installPlansNoApprovals relatedInstallPlans ;;
                    ret (changed, None)
                | _ =>
                    let allUpgradeVersions := upgradeVersions ipsRequiringApproval in
                    if IsInform (RemediationAction policy) then
                      changed <- updateStatus
                                   (installPlanUpgradeCond allUpgradeVersions [])
                                   relatedInstallPlans ;;
                      ret (changed, None)
                    else
                      let approvableInstallPlans :=
                        approvablePlans (Versions policy) ipsRequiringApproval in
                      let approvedVersion :=
                        approvedVersionOf (Versions policy)
                          (map snd ipsRequiringApproval) in
                      match approvableInstallPlans with
                      | [(ipLoc, ip)] =>
                          match SetNestedField ip (JBool true) ["spec"; "approved"] with
                          | inl err =>
                              ret (false,
                                   Some (wrapErr "error approving InstallPlan" err))
                          | inr ip' =>
                              store ipLoc ip' ;;;
                              err <- UpdateCopy ipLoc ;;
                              match err with
                              | Some err =>
                                  ret (false,
                                       Some (wrapErr
                                         "error updating approved InstallPlan" err))
                              | None =>
                                  changed <- updateStatus
                                               (installPlanApprovedCond approvedVersion)
                                               relatedInstallPlans ;;
                                  ret (changed, None)
                              end
                          end
                      | _ =>
                          changed <- updateStatus
                                       (installPlanUpgradeCond allUpgradeVersions
                                          (map snd approvableInstallPlans))
                                       relatedInstallPlans ;;
                          ret (changed, None)
                      end
                end
          end
      end
  end.

(** ** Installed version, deployments, catalog source *)

(** [handleCSV] *)
Definition handleCSV (policy : OperatorPolicy) (sub : option Subscription)
  : M (option ClusterServiceVersion * bool * option Error) :=
  match sub with
  | None =>
      changed <- updateStatus noCSVCond [noExistingCSVObj] ;;
      ret (None, changed, None)
  | Some sub =>
      if String.eqb (InstalledCSV (Status sub)) "" then
        changed <- updateStatus noCSVCond [noExistingCSVObj] ;;
        ret (None, changed, None)
      else
        match watcherGet E clusterServiceVersionGVK (subNamespace sub)
                (InstalledCSV (Status sub)) with
        | inl err => ret (None, false, Some err)
        | inr None =>
            changed <- updateStatus (missingWantedCond "ClusterServiceVersion")
                         [missingCSVObj (subName sub) (subNamespace sub)] ;;
            ret (None, changed, None)
        | inr (Some foundCSV) =>
            unstructured <- load foundCSV ;;
            match csvFromUnstructured E unstructured with
            | inl err => ret (None, false, Some err)
            | inr csv =>
                changed <- updateStatus (buildCSVCond csv) [existingCSVObj csv] ;;
                ret (Some csv, changed, None)
            end
        end
  end.

(** The loop of [handleDeployment] over the deployment specs of the CSV:
    the related objects, the unavailable deployments and the number of
    deployments found, or the error that ends the stage. *)
Fixpoint deploymentLoop (namespace : string) (specs : list string)
  (relatedObjects : list RelatedObject) (unavailableDeployments : list Deployment)
  (depNum : nat) (h : list JSON)
  : Error + (list RelatedObject * list Deployment * nat) :=
  match specs with
  | [] => inr (relatedObjects, unavailableDeployments, depNum)
  | name :: specs' =>
      match watcherGet E deploymentGVK namespace name with
      | inl err => inl (wrapErr "error getting the Deployment" err)
      | inr None =>
          deploymentLoop namespace specs'
            (relatedObjects ++ [missingDeploymentObj name namespace])
            unavailableDeployments depNum h
      | inr (Some foundDep) =>
          match deploymentFromUnstructured E (deref h foundDep) with
          | inl _ =>
              deploymentLoop namespace specs' relatedObjects
                unavailableDeployments depNum h
          | inr dep =>
              deploymentLoop namespace specs'
                (relatedObjects ++ [existingDeploymentObj dep])
                (if Z.ltb 0 (UnavailableReplicas dep)
                 then unavailableDeployments ++ [dep]
                 else unavailableDeployments)
                (S depNum) h
          end
      end
  end.

(** [handleDeployment] *)
Definition handleDeployment (policy : OperatorPolicy) (csv : option ClusterServiceVersion)
  : M (bool * option Error) :=
  match csv with
  | None =>
      changed <- updateStatus noDeploymentsCond [noExistingDeploymentObj] ;;
      ret (changed, None)
  | Some csv =>
      fun st =>
        match deploymentLoop (csvNamespace csv) (DeploymentSpecs csv) [] [] 0
                (heap st) with
        | inl err => ((false, Some err), st)
        | inr (relatedObjects, unavailableDeployments, depNum) =>
            (changed <- updateStatus
                          (buildDeploymentCond (Nat.ltb 0 depNum) unavailableDeployments)
                          relatedObjects ;;
             ret (changed, None)) st
        end
  end.

(** [handleCatalogSource] *)
Definition handleCatalogSource (policy : OperatorPolicy) (subscription : option Subscription)
  : M (bool * option Error) :=
  match subscription with
  | None =>
      changed <- updateStatus (invalidCausingUnknownCond "CatalogSource") [] ;;
      ret (changed, None)
  | Some subscription =>
      let catalogName := CatalogSource (Spec subscription) in
      let catalogNS := CatalogSourceNamespace (Spec subscription) in
      match watcherGet E catalogSrcGVK catalogNS catalogName with
      | inl err => ret (false, Some (wrapErr "error getting CatalogSource" err))
      | inr None =>
          changed <- updateStatus (catalogSourceFindCond true true catalogName)
                       [catalogSourceObj catalogName catalogNS true true] ;;
          ret (changed, None)
      | inr (Some foundCatalogSrc) =>
          catalogSrcUnstruct <- DeepCopy foundCatalogSrc ;;
          obj <- load catalogSrcUnstruct ;;
          match catalogSourceFromUnstructured E obj with
          | inl err =>
              ret (false,
                   Some (wrapErr
                     "error converting the retrieved CatalogSource to the Go type" err))
          | inr catalogSrc =>
              match GRPCConnectionState catalogSrc with
              | None =>
                  changed <- updateStatus catalogSourceUnknownCond
                               [catalogSrcUnknownObj catalogName catalogNS] ;;
                  ret (changed, None)
              | Some CatalogSrcState =>
                  let isUnhealthy := negb (String.eqb CatalogSrcState CatalogSourceReady) in
                  changed <- updateStatus
                               (catalogSourceFindCond isUnhealthy false catalogName)
                               [catalogSourceObj catalogName catalogNS isUnhealthy false] ;;
                  ret (changed, None)
              end
          end
      end
  end.

(** ** The pipeline *)

(** [handleResources] *)
Definition handleResources (policy : OperatorPolicy)
  : M (list ComplianceEvent * bool * option Error) :=
  r <- buildResources policy ;;
  let '(desiredSub, desiredOG, changed, err) := r in
  let condChanged := changed in
  let earlyComplianceEvents : list ComplianceEvent := [] in
  if isSome err then ret (earlyComplianceEvents, condChanged, err) else
  r <- handleOpGroup policy desiredOG ;;
  let '(earlyConds, changed, err) := r in
  let earlyComplianceEvents := (earlyComplianceEvents ++ earlyConds)%list in
  let condChanged := condChanged || changed in
  if isSome err then ret (earlyComplianceEvents, condChanged, err) else
  r <- handleSubscription policy desiredSub ;;
  let '(subscription, earlyConds, changed, err) := r in
  let earlyComplianceEvents := (earlyComplianceEvents ++ earlyConds)%list in
  let condChanged := condChanged || changed in
  if isSome err then ret (earlyComplianceEvents, condChanged, err) else
  r <- handleInstallPlan policy subscription ;;
  let '(changed, err) := r in
  let condChanged := condChanged || changed in
  if isSome err then ret (earlyComplianceEvents, condChanged, err) else
  r <- handleCSV policy subscription ;;
  let '(csv, changed, err) := r in
  let condChanged := condChanged || changed in
  if isSome err then ret (earlyComplianceEvents, condChanged, err) else
  r <- handleDeployment policy csv ;;
  let '(changed, err) := r in
  let condChanged := condChanged || changed in
  if isSome err then ret (earlyComplianceEvents, condChanged, err) else
  r <- handleCatalogSource policy subscription ;;
  let '(changed, err) := r in
  let condChanged := condChanged || changed in
  if isSome err then ret (earlyComplianceEvents, condChanged, err) else
  ret (earlyComplianceEvents, condChanged, None).

(** [r.emitComplianceEvent] for every condition to emit, collecting the
    errors. *)
Fixpoint emitAll (conds : list ComplianceEvent) : M (list Error) :=
  match conds with
  | [] => ret []
  | cond :: conds' =>
      send (ReqEvent cond) ;;;
      errs <- emitAll conds' ;;
      ret (optList (emitComplianceEvent E cond) ++ errs)%list
  end.

(** The error of a run: a single error returned as it is, or the
    aggregate of a list. *)
Inductive RunError :=
| Plain (e : Error)
| Aggregate (errs : list Error).

Definition aggregate (errs : list Error) : option RunError :=
  match NewAggregate errs with
  | Some errs => Some (Aggregate errs)
  | None => None
  end.

(** [Reconcile].  The deferred [EndQueryBatch] only logs its error, and
    so does [RemoveWatcher]; neither has an effect on the result. *)
Definition Reconcile (reqNamespace reqName : string) : M (option RunError) :=
  match clientGetPolicy E reqNamespace reqName with
  | PolicyNotFound _ => ret None
  | PolicyLookupFailed err => ret (Some (Plain err))
  | PolicyFound policy =>
      match StartQueryBatch E with
      | Some err => ret (Some (Plain err))
      | None =>
          r <- handleResources policy ;;
          let '(conditionsToEmit, conditionChanged, err) := r in
          let errs := optList err in
          r <- (if conditionChanged then
                  fun st =>
                    let final := calculateComplianceCondition (status st) in
                    (send (ReqStatusUpdate (status st)) ;;;
                     ret ((conditionsToEmit ++ [final])%list,
                          (errs ++ optList (clientStatusUpdate E (status st)))%list)) st
                else ret (conditionsToEmit, errs)) ;;
          let '(conditionsToEmit, errs) := r in
          emitErrs <- emitAll conditionsToEmit ;;
          ret (aggregate (errs ++ emitErrs)%list)
      end
  end.

(** *** The pipeline as a list of stages

    What [handleResources] threads from one stage to the next, and its
    seven stages as functions on it.  [runStages] stops at the first
    stage that returns an error, the way [handleResources] is written;
    [runAllStages] is the pipeline in the words of the spec: every stage
    runs, and the errors are collected. *)

Record Pipeline := {
  desiredSub : option Subscription;
  desiredOG : option OperatorGroup;
  subscription : option Subscription;
  csv : option ClusterServiceVersion;
  earlyComplianceEvents : list ComplianceEvent;
  condChanged : bool;
}.

Definition emptyPipeline : Pipeline :=
  {| desiredSub := None; desiredOG := None; subscription := None; csv := None;
     earlyComplianceEvents := []; condChanged := false |}.

Definition Stage : Type := Pipeline -> M (Pipeline * option Error).

Definition buildStage (policy : OperatorPolicy) : Stage := fun p =>
  r <- buildResources policy ;;
  let '(sub, og, changed, err) := r in
  ret ({| desiredSub := sub; desiredOG := og; subscription := subscription p;
          csv := csv p; earlyComplianceEvents := earlyComplianceEvents p;
          condChanged := condChanged p || changed |}, err).

Definition opGroupStage (policy : OperatorPolicy) : Stage := fun p =>
  r <- handleOpGroup policy (desiredOG p) ;;
  let '(earlyConds, changed, err) := r in
  ret ({| desiredSub := desiredSub p; desiredOG := desiredOG p;
          subscription := subscription p; csv := csv p;
          earlyComplianceEvents := (earlyComplianceEvents p ++ earlyConds)%list;
          condChanged := condChanged p || changed |}, err).

Definition subscriptionStage (policy : OperatorPolicy) : Stage := fun p =>
  r <- handleSubscription policy (desiredSub p) ;;
  let '(sub, earlyConds, changed, err) := r in
  ret ({| desiredSub := desiredSub p; desiredOG := desiredOG p;
          subscription := sub; csv := csv p;
          earlyComplianceEvents := (earlyComplianceEvents p ++ earlyConds)%list;
          condChanged := condChanged p || changed |}, err).

Definition installPlanStage (policy : OperatorPolicy) : Stage := fun p =>
  r <- handleInstallPlan policy (subscription p) ;;
  let '(changed, err) := r in
  ret ({| desiredSub := desiredSub p; desiredOG := desiredOG p;
          subscription := subscription p; csv := csv p;
          earlyComplianceEvents := earlyComplianceEvents p;
          condChanged := condChanged p || changed |}, err).

Definition csvStage (policy : OperatorPolicy) : Stage := fun p =>
  r <- handleCSV policy (subscription p) ;;
  let '(found, changed, err) := r in
  ret ({| desiredSub := desiredSub p; desiredOG := desiredOG p;
          subscription := subscription p; csv := found;
          earlyComplianceEvents := earlyComplianceEvents p;
          condChanged := condChanged p || changed |}, err).

Definition deploymentStage (policy : OperatorPolicy) : Stage := fun p =>
  r <- handleDeployment policy (csv p) ;;
  let '(changed, err) := r in
  ret ({| desiredSub := desiredSub p; desiredOG := desiredOG p;
          subscription := subscription p; csv := csv p;
          earlyComplianceEvents := earlyComplianceEvents p;
          condChanged := condChanged p || changed |}, err).

Definition catalogSourceStage (policy : OperatorPolicy) : Stage := fun p =>
  r <- handleCatalogSource policy (subscription p) ;;
  let '(changed, err) := r in
  ret ({| desiredSub := desiredSub p; desiredOG := desiredOG p;
          subscription := subscription p; csv := csv p;
          earlyComplianceEvents := earlyComplianceEvents p;
          condChanged := condChanged p || changed |}, err).

Definition stages (policy : OperatorPolicy) : list Stage :=
  [buildStage policy; opGroupStage policy; subscriptionStage policy;
   installPlanStage policy; csvStage policy; deploymentStage policy;
   catalogSourceStage policy].

Fixpoint runStages (ss : list Stage) (p : Pipeline) : M (Pipeline * option Error) :=
  match ss with
  | [] => ret (p, None)
  | s :: ss' =>
      r <- s p ;;
      let (p', err) := r in
      if isSome err then ret (p', err) else runStages ss' p'
  end.

Fixpoint runAllStages (ss : list Stage) (p : Pipeline) : M (Pipeline * list Error) :=
  match ss with
  | [] => ret (p, [])
  | s :: ss' =>
      r <- s p ;;
      let (p', err) := r in
      r' <- runAllStages ss' p' ;;
      let (p'', errs) := r' in
      ret (p'', (optList err ++ errs)%list)
  end.

End Reconciler.

(** ** What the spec and the end-to-end expectations say of the
    conditions *)

(** Modelled from the spec: the condition constructors are in the status
    file, which is not among the sources.  The status each of them gives
    its condition is taken from the compliance verdict the spec attaches
    to the state (section 4.3 and 4.4) and from the condition the
    end-to-end suite expects; [None] where neither states it. *)
Definition specStatus (c : CondSpec) : option string :=
  match c with
  | missingWantedCond _ => Some ConditionFalse
  | createdCond _ => Some ConditionTrue
  | matchesCond _ => Some ConditionTrue
  | mismatchCond _ => Some ConditionFalse
  | mismatchCondUnfixable _ => Some ConditionFalse
  | updatedCond _ => Some ConditionTrue
  | opGroupPreexistingCond => Some ConditionTrue
  | opGroupTooManyCond => Some ConditionFalse
  | literalCond c => Some (condStatus c)
  | noInstallPlansCond => Some ConditionTrue
  | installPlanFailed => Some ConditionFalse
  | installPlanInstallingCond => Some ConditionFalse
  | installPlansNoApprovals => Some ConditionTrue
  | installPlanUpgradeCond _ _ => Some ConditionFalse
  | installPlanApprovedCond _ => Some ConditionTrue
  | _ => None
  end.

(** ** A concrete environment

    Instances of the collaborators, for running the reconcilers on
    concrete inputs. *)

Module Sample.

(** A strict decoder for [SubscriptionSpec]: the keys of the struct
    tags, with string values, and [config] kept as it is. *)
Fixpoint decodeSubscriptionFields (m : list (string * JSON)) (spec : SubscriptionSpec)
  : Error + SubscriptionSpec :=
  match m with
  | [] => inr spec
  | (k, v) :: m' =>
      let str := match v with JStr s => Some s | _ => None end in
      let bad := inl ("json: cannot unmarshal field " ++ k) in
      if String.eqb k "config" then
        decodeSubscriptionFields m'
          {| CatalogSource := CatalogSource spec;
             CatalogSourceNamespace := CatalogSourceNamespace spec;
             Package := Package spec; Channel := Channel spec;
             StartingCSV := StartingCSV spec;
             InstallPlanApproval := InstallPlanApproval spec; Config := Some v |}
      else
        match str with
        | None => bad
        | Some s =>
            if String.eqb k "source" then
              decodeSubscriptionFields m'
                {| CatalogSource := s;
                   CatalogSourceNamespace := CatalogSourceNamespace spec;
                   Package := Package spec; Channel := Channel spec;
                   StartingCSV := StartingCSV spec;
                   InstallPlanApproval := InstallPlanApproval spec;
                   Config := Config spec |}
            else if String.eqb k "sourceNamespace" then
              decodeSubscriptionFields m'
                {| CatalogSource := CatalogSource spec;
                   CatalogSourceNamespace := s;
                   Package := Package spec; Channel := Channel spec;
                   StartingCSV := StartingCSV spec;
                   InstallPlanApproval := InstallPlanApproval spec;
                   Config := Config spec |}
            else if String.eqb k "name" then
              decodeSubscriptionFields m'
                {| CatalogSource := CatalogSource spec;
                   CatalogSourceNamespace := CatalogSourceNamespace spec;
                   Package := s; Channel := Channel spec;
                   StartingCSV := StartingCSV spec;
                   InstallPlanApproval := InstallPlanApproval spec;
                   Config := Config spec |}
            else if String.eqb k "channel" then
              decodeSubscriptionFields m'
                {| CatalogSource := CatalogSource spec;
                   CatalogSourceNamespace := CatalogSourceNamespace spec;
                   Package := Package spec; Channel := s;
                   StartingCSV := StartingCSV spec;
                   InstallPlanApproval := InstallPlanApproval spec;
                   Config := Config spec |}
            else if String.eqb k "startingCSV" then
              decodeSubscriptionFields m'
                {| CatalogSource := CatalogSource spec;
                   CatalogSourceNamespace := CatalogSourceNamespace spec;
                   Package := Package spec; Channel := Channel spec;
                   StartingCSV := s;
                   InstallPlanApproval := InstallPlanApproval spec;
                   Config := Config spec |}
            else if String.eqb k "installPlanApproval" then
              decodeSubscriptionFields m' (setInstallPlanApproval s spec)
            else inl ("json: unknown field " ++ k)
        end
  end.

Definition emptySubscriptionSpec : SubscriptionSpec :=
  {| CatalogSource := ""; CatalogSourceNamespace := ""; Package := "";
     Channel := ""; StartingCSV := ""; InstallPlanApproval := ""; Config := None |}.

Definition strictSubscriptionSpec (v : JSON) : Error + SubscriptionSpec :=
  match v with
  | JObj m => decodeSubscriptionFields m emptySubscriptionSpec
  | _ => inl "json: cannot unmarshal value into SubscriptionSpec"
  end.

(** A strict decoder for [OperatorGroupSpec] that knows
    [targetNamespaces]. *)
Definition strictOperatorGroupSpec (v : JSON) : Error + OperatorGroupSpec :=
  match v with
  | JObj [] => inr emptyOperatorGroupSpec
  | JObj [(k, JArr l)] =>
      if String.eqb k "targetNamespaces" then
        match allStrings l with
        | Some ns =>
            inr {| Selector := None; TargetNamespaces := ns;
                   ServiceAccountName := ""; StaticProvidedAPIs := false;
                   UpgradeStrategy := "" |}
        | None => inl "json: cannot unmarshal field targetNamespaces"
        end
      else inl ("json: unknown field " ++ k)
  | JObj ((k, _) :: _) => inl ("json: unknown field " ++ k)
  | _ => inl "json: cannot unmarshal value into OperatorGroupSpec"
  end.

Definition metadataOf (name generateName namespace : string) : JSON :=
  JObj [("name", JStr name); ("generateName", JStr generateName);
        ("namespace", JStr namespace)].

Definition fromOperatorGroup (og : OperatorGroup) : Error + JSON :=
  inr (JObj [("apiVersion", JStr (GroupVersionString (ogGVK og)));
             ("kind", JStr (Kind (ogGVK og)));
             ("metadata", metadataOf (ogName og) (ogGenerateName og) (ogNamespace og));
             ("spec", JObj [("targetNamespaces",
                             JArr (map JStr (TargetNamespaces (ogSpec og))))])]).

Definition fromSubscription (s : Subscription) : Error + JSON :=
  inr (JObj [("apiVersion", JStr (GroupVersionString (subGVK s)));
             ("kind", JStr (Kind (subGVK s)));
             ("metadata", metadataOf (subName s) "" (subNamespace s));
             ("spec", JObj [("source", JStr (CatalogSource (Spec s)));
                            ("sourceNamespace", JStr (CatalogSourceNamespace (Spec s)));
                            ("name", JStr (Package (Spec s)));
                            ("channel", JStr (Channel (Spec s)));
                            ("installPlanApproval",
                             JStr (InstallPlanApproval (Spec s)))])]).

Definition conditionFromUnstructured (v : JSON) : SubscriptionCondition :=
  {| scType := getNestedString v ["type"];
     scStatus := getNestedString v ["status"];
     scReason := getNestedString v ["reason"];
     scMessage := getNestedString v ["message"];
     scLastTransitionTime := None |}.

Definition toSubscription (v : JSON) : Error + Subscription :=
  match NestedFieldNoCopy v ["spec"] with
  | NFound (JObj spec) =>
      inr {| subGVK := subscriptionGVK;
             subName := GetName v;
             subNamespace := getNestedString v ["metadata"; "namespace"];
             Spec :=
               {| CatalogSource := getNestedString v ["spec"; "source"];
                  CatalogSourceNamespace :=
                    getNestedString v ["spec"; "sourceNamespace"];
                  Package := getNestedString v ["spec"; "name"];
                  Channel := getNestedString v ["spec"; "channel"];
                  StartingCSV := getNestedString v ["spec"; "startingCSV"];
                  InstallPlanApproval :=
                    getNestedString v ["spec"; "installPlanApproval"];
                  Config := None |};
             Status :=
               {| InstalledCSV := getNestedString v ["status"; "installedCSV"];
                  InstallPlanRef :=
                    match NestedString v ["status"; "installPlanRef"; "name"] with
                    | NFound n => Some n
                    | _ => None
                    end;
                  Conditions :=
                    match NestedFieldNoCopy v ["status"; "conditions"] with
                    | NFound (JArr l) => map conditionFromUnstructured l
                    | _ => []
                    end |} |}
  | _ => inl "cannot convert to a Subscription: spec is not an object"
  end.

Definition toCSV (v : JSON) : Error + ClusterServiceVersion :=
  inr {| csvName := GetName v;
         csvNamespace := getNestedString v ["metadata"; "namespace"];
         DeploymentSpecs := [];
         csvPhase := getNestedString v ["status"; "phase"];
         csvReason := getNestedString v ["status"; "reason"];
         csvMessage := getNestedString v ["status"; "message"] |}.

Definition toDeployment (v : JSON) : Error + Deployment :=
  inr {| depName := GetName v;
         depNamespace := getNestedString v ["metadata"; "namespace"];
         UnavailableReplicas :=
           match NestedFieldNoCopy v ["status"; "unavailableReplicas"] with
           | NFound (JNum z) => z
           | _ => 0%Z
           end |}.

Definition toCatalogSource (v : JSON) : Error + CatalogSource_ :=
  inr {| GRPCConnectionState :=
           match NestedString v ["status"; "connectionState"; "lastObservedState"] with
           | NFound s => Some s
           | _ => None
           end |}.

(** Strips the status subtree. *)
Definition stripStatus (v : JSON) : JSON :=
  match v with
  | JObj m => JObj (obj_del "status" m)
  | _ => v
  end.

(** A cluster whose store accepts every write and answers with the object
    it was sent; the policy lookup, the watcher, the dry run and the key
    comparison are given. *)
Definition env (defaultNS : string) (lookup : string -> string -> PolicyLookup)
  (get : GroupVersionKind -> string -> string -> Error + option loc)
  (list : GroupVersionKind -> string -> Error + list loc)
  (dryRun : JSON -> UpdateReply)
  (keys : JSON -> JSON -> JSON -> string -> JSON * string * bool) : Env :=
  {| DefaultNamespace := defaultNS;
     watcherGet := get;
     watcherList := list;
     StartQueryBatch := None;
     EndQueryBatch := None;
     RemoveWatcher := None;
     clientGetPolicy := lookup;
     clientCreateOperatorGroup := fun og => inr og;
     clientCreateSubscription := fun s => inr s;
     clientUpdate := fun v => Updated v;
     clientDryRunUpdate := dryRun;
     clientStatusUpdate := fun _ => None;
     statusChanged := fun _ _ _ => true;
     emitComplianceEvent := fun _ => None;
     handleKeys := keys;
     removeFieldsForComparison := stripStatus;
     decodeSubscriptionSpec := strictSubscriptionSpec;
     decodeOperatorGroupSpec := strictOperatorGroupSpec;
     operatorGroupToUnstructured := fromOperatorGroup;
     subscriptionToUnstructured := fromSubscription;
     subscriptionFromUnstructured := toSubscription;
     csvFromUnstructured := toCSV;
     deploymentFromUnstructured := toDeployment;
     catalogSourceFromUnstructured := toCatalogSource |}.

End Sample.

(** ** Concrete inputs *)

Module Inputs.

(** A top-level must-have comparison in the place of [handleKeys]: a key
    of the desired object that the existing object lacks, or binds to a
    different value, is set and asks for an update. *)
Fixpoint mergeKeys (desired existing : list (string * JSON))
  : list (string * JSON) * bool :=
  match desired with
  | [] => (existing, false)
  | (k, v) :: desired' =>
      let (m, updateNeeded) := mergeKeys desired' existing in
      match obj_get k m with
      | Some w => if DeepEqual v w then (m, updateNeeded) else (obj_set k v m, true)
      | None => (obj_set k v m, true)
      end
  end.

Definition keys (desired existing copy : JSON) (complianceType : string)
  : JSON * string * bool :=
  match desired, existing with
  | JObj d, JObj e => let (m, u) := mergeKeys d e in (JObj m, "", u)
  | _, _ => (existing, "the objects to merge are not maps", false)
  end.

Definition subscriptionSpec (installPlanApproval : string) : JSON :=
  JObj [("namespace", JStr "operators");
        ("source", JStr "operatorhubio-catalog");
        ("sourceNamespace", JStr "olm");
        ("name", JStr "project-quay");
        ("channel", JStr "stable-3.8");
        ("installPlanApproval", JStr installPlanApproval)].

Definition policy (action : RemediationAction_) (operatorGroup : option RawExtension)
  (versions : list string) : OperatorPolicy :=
  {| polNamespace := "managed"; polName := "oppol";
     RemediationAction := action; ComplianceType := "musthave";
     SpecSubscription := Some (subscriptionSpec "Automatic");
     SpecOperatorGroup := operatorGroup;
     Versions := versions |}.

(** A subscription to the package of the same name. *)
Definition named (package installPlanApproval : string) : Subscription :=
  {| subGVK := subscriptionGVK; subName := package; subNamespace := "operators";
     Spec := {| CatalogSource := "operatorhubio-catalog";
                CatalogSourceNamespace := "olm"; Package := package;
                Channel := "stable-3.8"; StartingCSV := "";
                InstallPlanApproval := installPlanApproval; Config := None |};
     Status := emptySubscriptionStatus |}.

(** The subscription that the policy above asks for. *)
Definition quaySubscription (installPlanApproval : string) : Subscription :=
  named "project-quay" installPlanApproval.

(** The message of the resolver when a package is not in the catalog. *)
Definition noOperatorsFound (package : string) : string :=
  "constraints not satisfiable: no operators found in package " ++ package
  ++ " in the catalog referenced by subscription " ++ package
  ++ ", subscription " ++ package ++ " exists".

(** A package name that is not valid UTF-8. *)
Definition brokenName : string := String (ascii_of_nat 255) "quay".

(** *** The objects of the cluster *)

Definition namespaceObject : JSON :=
  JObj [("apiVersion", JStr "v1"); ("kind", JStr "Namespace");
        ("metadata", JObj [("name", JStr "operators")])].

(** An operator group that the console generated, scoped to its own
    namespace. *)
Definition generatedGroup : JSON :=
  JObj [("apiVersion", JStr "operators.coreos.com/v1");
        ("kind", JStr "OperatorGroup");
        ("metadata", JObj [("name", JStr "operators-x7k2p");
                           ("generateName", JStr "operators-");
                           ("namespace", JStr "operators")]);
        ("spec", JObj [("targetNamespaces", JArr [JStr "operators"])])].

Definition extraGroup : JSON :=
  JObj [("apiVersion", JStr "operators.coreos.com/v1");
        ("kind", JStr "OperatorGroup");
        ("metadata", JObj [("name", JStr "extra-operator-group");
                           ("generateName", JStr "");
                           ("namespace", JStr "operators")]);
        ("spec", JObj [("targetNamespaces", JArr [])])].

(** The stored form of a subscription, with the resolution failure that
    the namespace reports. *)
Definition stored (s : Subscription) (failure : string) : JSON :=
  match Sample.fromSubscription s with
  | inr (JObj m) =>
      JObj (obj_set "status"
              (JObj [("conditions",
                      JArr [JObj [("type", JStr "ResolutionFailed");
                                  ("status", JStr "True");
                                  ("reason", JStr "ConstraintsNotSatisfiable");
                                  ("message", JStr failure)]])]) m)
  | _ => JNull
  end.

Definition installPlan (name phase : string) (csvNames : list string) : JSON :=
  JObj [("apiVersion", JStr "operators.coreos.com/v1alpha1");
        ("kind", JStr "InstallPlan");
        ("metadata",
         JObj [("name", JStr name); ("namespace", JStr "operators");
               ("ownerReferences",
                JArr [JObj [("apiVersion", JStr "operators.coreos.com/v1alpha1");
                            ("kind", JStr "Subscription");
                            ("name", JStr "project-quay")]])]);
        ("spec", JObj [("approval", JStr "Manual"); ("approved", JBool false);
                       ("clusterServiceVersionNames", JArr (map JStr csvNames))]);
        ("status", JObj [("phase", JStr phase)])].

(** The heap at the start of a run: the objects of the watch cache.
    - 0: the namespace;
    - 1, 2: two operator groups;
    - 3: the subscription of the policy, with another approval mode;
    - 4: the subscription of the policy as the policy wants it, in a
         namespace where another subscription cannot be resolved;
    - 5: a subscription whose name is not valid UTF-8;
    - 6, 7: two install plans of the subscription awaiting approval. *)
Definition cache : list JSON :=
  [namespaceObject;
   generatedGroup;
   extraGroup;
   stored (quaySubscription "Manual") "";
   stored (quaySubscription "Automatic") (noOperatorsFound "project-quay-does-not-exist");
   stored (named brokenName "Automatic") (noOperatorsFound "project-quay-does-not-exist");
   installPlan "install-aaaaa" "RequiresApproval" ["quay-operator.v3.8.13"];
   installPlan "install-bbbbb" "RequiresApproval" ["quay-operator.v3.9.0"]].

Definition start (h : list JSON) : State :=
  {| heap := h; requests := []; status := [] |}.

(** The watcher: the namespace, the subscription at the given pointer,
    the given operator groups and the two install plans. *)
Definition get (sub : option loc) (gvk : GroupVersionKind) (namespace name : string)
  : Error + option loc :=
  if GVK_eqb gvk namespaceGVK then inr (Some 0)
  else if GVK_eqb gvk subscriptionGVK then inr sub
  else inr None.

Definition lists (groups : list loc) (gvk : GroupVersionKind) (namespace : string)
  : Error + list loc :=
  if GVK_eqb gvk operatorGroupGVK then inr groups
  else if GVK_eqb gvk installPlanGVK then inr [6; 7]
  else inr [].

Definition cluster (p : OperatorPolicy) (sub : option loc) (groups : list loc)
  (dryRun : JSON -> UpdateReply) : Env :=
  Sample.env "" (fun _ _ => PolicyFound p) (get sub) (lists groups) dryRun keys.

Definition accepts (v : JSON) : UpdateReply := Updated v.
Definition forbids (v : JSON) : UpdateReply := Forbidden "field is immutable".

(** A cluster whose lists fail. *)
Definition listFails (gvk : GroupVersionKind) (namespace : string)
  : Error + list loc := inl "connection refused".

Definition failingLists : Env :=
  Sample.env "" (fun _ _ => PolicyFound (policy Inform None []))
    (get None) listFails accepts keys.

(** The operator group that a policy without [spec.operatorGroup] asks
    for, and one that a policy specifies. *)
Definition defaultGroup : OperatorGroup :=
  {| ogGVK := operatorGroupGVK; ogName := ""; ogGenerateName := "operators-";
     ogNamespace := "operators"; ogResourceVersion := "";
     ogSpec := emptyOperatorGroupSpec |}.

Definition groupSpec : RawExtension :=
  Some (JObj [("name", JStr "operators-x7k2p"); ("targetNamespaces", JArr [])]).

Definition specifiedGroup : OperatorGroup :=
  {| ogGVK := operatorGroupGVK; ogName := "operators-x7k2p"; ogGenerateName := "";
     ogNamespace := "operators"; ogResourceVersion := "";
     ogSpec := emptyOperatorGroupSpec |}.

(** What the key comparison makes of a desired and an existing object. *)
Definition mergedWith (desired : Error + JSON) (existing : JSON) : JSON :=
  match desired with
  | inr d => fst (fst (keys d existing (Sample.stripStatus existing) "musthave"))
  | inl _ => JNull
  end.

Definition unstructured (desired : Error + JSON) : JSON :=
  match desired with
  | inr d => d
  | inl _ => JNull
  end.

Definition typed (v : JSON) : Subscription :=
  match Sample.toSubscription v with
  | inr s => s
  | inl _ => named "" ""
  end.

End Inputs.

(** ** Notions used in the statements *)

Local Open Scope list_scope.

Definition mkState (h : list JSON) (rs : list Request) (s : list StatusUpdate)
  : State :=
  {| heap := h; requests := rs; status := s |}.

(** The result and the state of [mergeObjects], with the heap written
    out: the object at [existing] is overwritten, and the stripped copy
    is a new object at the end of the heap. *)
Definition mergeOutcome (E : Env) (desired : JSON) (existing : loc)
  (complianceType : string) (st : State) : (bool * bool * option Error) * State :=
  let h := heap st in
  let orig := deref h existing in
  let copy := removeFieldsForComparison E orig in
  let '(merged, errMsg, updateNeeded) :=
    handleKeys E desired orig copy complianceType in
  if negb (String.eqb errMsg "") then
    ((updateNeeded, false, Some errMsg),
     mkState (<[existing := merged]> h ++ [copy]) (requests st) (status st))
  else if updateNeeded then
    match clientDryRunUpdate E merged with
    | Updated stored =>
        ((if DeepEqual (removeFieldsForComparison E stored) copy
          then false else updateNeeded, false, None),
         mkState (<[existing := removeFieldsForComparison E stored]> h ++ [copy])
           (requests st ++ [ReqDryRunUpdate merged]) (status st))
    | Forbidden _ =>
        ((true, true, None),
         mkState (<[existing := merged]> h ++ [copy])
           (requests st ++ [ReqDryRunUpdate merged]) (status st))
    | Failed err =>
        ((updateNeeded, false, Some err),
         mkState (<[existing := merged]> h ++ [copy])
           (requests st ++ [ReqDryRunUpdate merged]) (status st))
    end
  else
    ((updateNeeded, false, None),
     mkState (<[existing := merged]> h ++ [copy]) (requests st) (status st)).

(** [keeps n st st']: the heap did not shrink and the cells below [n]
    hold what they held. *)
Definition keeps (n : nat) (st st' : State) : Prop :=
  length (heap st) <= length (heap st')
  /\ forall l, l < n -> heap st' !! l = heap st !! l.

(** The claim in the words of the spec: the run has the status of the
    pipeline in which every stage runs, and returns every error of
    it. *)
Definition collectsEveryStageError (E : Env) (policy : OperatorPolicy) (st : State)
  : Prop :=
  let run := handleResources E policy st in
  let all := runAllStages (stages E policy) emptyPipeline st in
  status (snd run) = status (snd all)
  /\ optList (snd (fst run)) = snd (fst all).

(** The errors of the steps of [Reconcile] that follow the pipeline. *)
Definition laterErrors (E : Env) (events : list ComplianceEvent) (changed : bool)
  (st : State) : list Error :=
  (if changed then optList (clientStatusUpdate E (status st)) else [])
  ++ flat_map (fun c => optList (emitComplianceEvent E c))
       (events ++ if changed then [calculateComplianceCondition (status st)] else []).

(** The dry run of the update that the key comparison asks for is
    rejected as forbidden. *)
Definition dryRunForbidden (E : Env) (desired original : JSON)
  (complianceType : string) (merged : JSON) : Prop :=
  handleKeys E desired original (removeFieldsForComparison E original) complianceType
  = (merged, "", true)
  /\ exists e, clientDryRunUpdate E merged = Forbidden e.

(** The test of [handleOpGroup] on the one operator group found: its name
    is the desired name, or no name is desired and the generated-name
    prefixes agree. *)
Definition identityMatches (desired : OperatorGroup) (opGroup : JSON) : bool :=
  String.eqb (GetName opGroup) (ogName desired)
  || (String.eqb (ogName desired) ""
      && String.eqb (GetGenerateName opGroup) (ogGenerateName desired)).

(** The claim in the words of the spec, for one reconciler run: the
    unfixable mismatch of that kind is the condition reported. *)
Definition reportsUnfixable (kind : string) (st st' : State) : Prop :=
  exists objs, status st' = status st ++ [(mismatchCondUnfixable kind, objs)].

(** The claim in the words of the spec, for one reconciler run: the
    condition reported is the one that an invalid policy causes. *)
Definition reportsInvalid (st st' : State) : Prop :=
  exists kind objs, status st' = status st ++ [(invalidCausingUnknownCond kind, objs)].

(** A run that only made one status update. *)
Definition onlyReports (st st' : State) (cond : CondSpec) (objs : list RelatedObject)
  : Prop :=
  st' = mkState (heap st) (requests st) (status st ++ [(cond, objs)]).

(** The install plans found, as [handleInstallPlan] reads them. *)
Definition plansAt (st : State) (found : list loc) : list (loc * JSON) :=
  map (fun l => (l, deref (heap st) l)) found.

(** What a pattern matches at the front of a text: [denotes re s r] when
    [s] is a text that [re] matches, followed by [r]. *)
Fixpoint denotes (re : Regexp) (s r : string) : Prop :=
  match re with
  | Lit l => s = (l ++ r)%string
  | EndText => s = "" /\ r = ""
  | PerlSpace => exists c, isPerlSpace c = true /\ s = String c r
  | Alt a b => denotes a s r \/ denotes b s r
  | Cat a b => exists mid, denotes a s mid /\ denotes b mid r
  end.

(** The text after a name ends the name: it is empty, or starts with
    white space, a comma or a colon. *)
Definition endsName (rest : string) : Prop :=
  rest = ""
  \/ exists c rest', rest = String c rest'
       /\ (isPerlSpace c = true \/ c = ","%char \/ c = ":"%char).

(** The message mentions the subscription or its package: it contains
    "subscription " followed by the name, or "package " followed by the
    package name, either of them with or without the namespace in front,
    and the name ends there. *)
Definition mentions (sub : Subscription) (message : string) : Prop :=
  exists before keyword name rest,
    message = (before ++ keyword ++ name ++ rest)%string
    /\ ((keyword = "subscription "
         /\ (name = subName sub
             \/ name = (subNamespace sub ++ "/" ++ subName sub)%string))
        \/ (keyword = "package "
            /\ (name = Package (Spec sub)
                \/ name = (subNamespace sub ++ "/" ++ Package (Spec sub))%string)))
    /\ endsName rest.

(** * Properties *)

(** ** The heap *)

Lemma deref_alloc (h : list JSON) (v : JSON) (l : loc) :
  l < length h -> deref (h ++ [v]) l = deref h l.
Proof. intros H. unfold deref. rewrite lookup_app_l by exact H. reflexivity. Qed.

Lemma deref_fresh (h : list JSON) (v : JSON) :
  deref (h ++ [v]) (length h) = v.
Proof. unfold deref. rewrite list_lookup_middle by reflexivity. reflexivity. Qed.

Lemma insert_fresh (h : list JSON) (v x : JSON) :
  <[length h := x]> (h ++ [v]) = h ++ [x].
Proof.
  rewrite insert_app_r_alt by lia.
  rewrite Nat.sub_diag. reflexivity.
Qed.

Lemma insert_old (h : list JSON) (c x : JSON) (l : loc) :
  l < length h -> <[l := x]> (h ++ [c]) = <[l := x]> h ++ [c].
Proof. intros H. apply insert_app_l. exact H. Qed.

Lemma deref_insert_old (h : list JSON) (c x : JSON) (l : loc) :
  l < length h -> deref (<[l := x]> h ++ [c]) l = x.
Proof.
  intros H. unfold deref.
  rewrite lookup_app_l by (rewrite length_insert; exact H).
  rewrite list_lookup_insert_eq by exact H. reflexivity.
Qed.

Lemma deref_insert_fresh (h : list JSON) (c x : JSON) (l : loc) :
  deref (<[l := x]> h ++ [c]) (length h) = c.
Proof.
  unfold deref. rewrite list_lookup_middle by (rewrite length_insert; reflexivity).
  reflexivity.
Qed.

Lemma insert_insert_old (h : list JSON) (c x y : JSON) (l : loc) :
  l < length h -> <[l := y]> (<[l := x]> h ++ [c]) = <[l := y]> h ++ [c].
Proof.
  intros H. rewrite insert_app_l by (rewrite length_insert; exact H).
  rewrite list_insert_insert_eq. reflexivity.
Qed.

(** ** The merge engine, run on a valid pointer *)

Lemma mergeObjects_run (E : Env) (desired : JSON) (existing : loc)
  (complianceType : string) (st : State) :
  existing < length (heap st) ->
  mergeObjects E desired existing complianceType st
  = mergeOutcome E desired existing complianceType st.
Proof.
  intros Hlt.
  unfold mergeObjects, mergeOutcome, mkState, DryRunUpdate.
  repeat (progress unfold bind, DeepCopy, load, store, send, ret).
  cbn [heap requests status].
  rewrite deref_fresh, insert_fresh.
  rewrite deref_alloc by exact Hlt.
  rewrite deref_fresh.
  destruct (handleKeys E desired (deref (heap st) existing)
              (removeFieldsForComparison E (deref (heap st) existing))
              complianceType) as [[merged errMsg] updateNeeded].
  cbn [heap requests status].
  rewrite insert_old by exact Hlt.
  destruct (negb (String.eqb errMsg "")); [reflexivity|].
  destruct updateNeeded; [|reflexivity].
  cbn [heap requests status].
  rewrite deref_insert_old by exact Hlt.
  destruct (clientDryRunUpdate E merged) as [stored|e|e]; try reflexivity.
  cbn [heap requests status].
  rewrite insert_insert_old by exact Hlt.
  rewrite deref_insert_old by exact Hlt.
  rewrite insert_insert_old by exact Hlt.
  rewrite deref_insert_old by exact Hlt.
  rewrite deref_insert_fresh.
  destruct (DeepEqual _ _); reflexivity.
Qed.

(** ** Cells that a run leaves alone *)

Lemma keeps_trans (n : nat) (st1 st2 st3 : State) :
  keeps n st1 st2 -> keeps n st2 st3 -> keeps n st1 st3.
Proof.
  intros [Hlen1 H1] [Hlen2 H2]. split; [lia|].
  intros l Hl. rewrite H2 by exact Hl. apply H1. exact Hl.
Qed.

Ltac heap_len :=
  repeat (rewrite length_app || rewrite length_insert); simpl; lia.

Ltac heap_frame :=
  split;
  [ cbn [heap snd]; heap_len
  | let l := fresh "l" in
    let Hl := fresh "Hl" in
    intros l Hl; cbn [heap snd];
    repeat first
      [ reflexivity
      | rewrite lookup_app_l by heap_len
      | rewrite list_lookup_insert_ne by lia ] ].

Ltac run_step :=
  repeat (progress unfold bind, DeepCopy, load, store, send, ret,
            updateStatus, earlyCondsIf, Update, UpdateCopy);
  cbn [heap requests status fst snd].

(** Case analysis on a scrutinee of the goal that has no case analysis
    inside. *)
Ltac break_match :=
  match goal with
  | |- context [match ?x with _ => _ end] =>
      lazymatch x with
      | context [match _ with _ => _ end] => fail
      | _ => destruct x eqn:?
      end
  end.

Lemma loadAll_run (ls : list loc) (st : State) :
  loadAll ls st = (map (deref (heap st)) ls, st).
Proof.
  induction ls as [|l ls IH]; [reflexivity|].
  cbn [loadAll]. unfold bind, load, ret. rewrite IH. reflexivity.
Qed.

Lemma mergeObjects_keeps (E : Env) (desired : JSON) (existing : loc)
  (complianceType : string) (st : State) (n : nat) :
  existing < length (heap st) -> n <= existing ->
  keeps n st (snd (mergeObjects E desired existing complianceType st)).
Proof.
  intros Hlt Hn. rewrite mergeObjects_run by exact Hlt.
  unfold mergeOutcome, mkState.
  destruct (handleKeys _ _ _ _ _) as [[merged errMsg] updateNeeded].
  destruct (negb _); [heap_frame|].
  destruct updateNeeded; [|heap_frame].
  destruct (clientDryRunUpdate E merged); heap_frame.
Qed.

(** After the merge, the reconcilers only write through the pointer they
    passed to it. *)
Ltac after_merge Hk :=
  repeat (break_match; run_step);
  (eapply keeps_trans; [|eapply keeps_trans; [exact Hk|]]); heap_frame.

Lemma handleOpGroup_keeps (E : Env) (policy : OperatorPolicy)
  (desiredOpGroup : option OperatorGroup) (st : State) :
  keeps (length (heap st)) st (snd (handleOpGroup E policy desiredOpGroup st)).
Proof.
  unfold handleOpGroup.
  destruct desiredOpGroup as [desired|]; [|run_step; heap_frame].
  destruct (String.eqb (ogNamespace desired) ""); [run_step; heap_frame|].
  destruct (watcherList E operatorGroupGVK (ogNamespace desired))
    as [err|[|found [|found' rest]]].
  - run_step. heap_frame.
  - run_step. destruct (IsInform _); [heap_frame|].
    run_step. destruct (clientCreateOperatorGroup E desired); heap_frame.
  - unfold handleOpGroupOne. run_step.
    destruct (negb _).
    { destruct (isNil _); run_step; heap_frame. }
    destruct (operatorGroupToUnstructured E desired) as [err|desiredUnstruct];
      [run_step; heap_frame|].
    run_step.
    match goal with
    | |- context [mergeObjects E ?d ?l ?c ?s] =>
        pose proof (mergeObjects_keeps E d l c s (length (heap st))) as Hk;
        destruct (mergeObjects E d l c s) as [[[updateNeeded skipUpdate] err] st2]
    end.
    cbn [heap snd] in Hk.
    assert (Hk' := Hk ltac:(heap_len) ltac:(lia)). clear Hk.
    after_merge Hk'.
  - unfold bind. rewrite loadAll_run. run_step. heap_frame.
Qed.

(** ** The pipeline *)

Lemma handleResources_stages (E : Env) (policy : OperatorPolicy) (st : State) :
  handleResources E policy st
  = (let (r, st') := runStages (stages E policy) emptyPipeline st in
     ((earlyComplianceEvents (fst r), condChanged (fst r), snd r), st')).
Proof.
  unfold handleResources, stages, runStages, buildStage, opGroupStage,
    subscriptionStage, installPlanStage, csvStage, deploymentStage,
    catalogSourceStage, emptyPipeline, bind, ret.
  destruct (buildResources E policy st) as [[[[dSub dOG] ch0] err0] st0].
  cbn.
  destruct err0 as [e|]; [reflexivity|]. cbn.
  destruct (handleOpGroup E policy dOG st0) as [[[ec1 ch1] err1] st1]. cbn.
  destruct err1 as [e|]; [reflexivity|]. cbn.
  destruct (handleSubscription E policy dSub st1) as [[[[sub ec2] ch2] err2] st2].
  cbn.
  destruct err2 as [e|]; [reflexivity|]. cbn.
  destruct (handleInstallPlan E policy sub st2) as [[ch3 err3] st3]. cbn.
  destruct err3 as [e|]; [reflexivity|]. cbn.
  destruct (handleCSV E policy sub st3) as [[[found ch4] err4] st4]. cbn.
  destruct err4 as [e|]; [reflexivity|]. cbn.
  destruct (handleDeployment E policy found st4) as [[ch5 err5] st5]. cbn.
  destruct err5 as [e|]; [reflexivity|]. cbn.
  destruct (handleCatalogSource E policy sub st5) as [[ch6 err6] st6]. cbn.
  destruct err6 as [e|]; reflexivity.
Qed.

(** A stage that fails ends [runStages]: the stages after it are not
    run. *)
Lemma runStages_stops (pre post : list Stage) (s : Stage)
  (p0 p p' : Pipeline) (e : Error) (st st1 st2 : State) :
  runStages pre p0 st = ((p, None), st1) ->
  s p st1 = ((p', Some e), st2) ->
  runStages (pre ++ s :: post) p0 st = ((p', Some e), st2).
Proof.
  revert p0 st. induction pre as [|s0 pre IH]; intros p0 st Hpre Hs.
  - cbn in Hpre. unfold ret in Hpre. injection Hpre as <- <-.
    cbn. unfold bind. rewrite Hs. reflexivity.
  - cbn in Hpre |- *. unfold bind in Hpre |- *.
    destruct (s0 p0 st) as [[q err] st0].
    destruct err as [e0|]; cbn [isSome] in Hpre |- *.
    + unfold ret in Hpre. discriminate Hpre.
    + apply IH; assumption.
Qed.

(** C1, as stated, fails: when the list of operator groups and the list
    of install plans both fail, the run returns the first error only,
    and the subscription, install plan, CSV, deployment and catalog
    source stages, which would all have reported a condition, are not
    run. *)
Lemma handleResources_not_collecting :
  ~ collectsEveryStageError Inputs.failingLists (Inputs.policy Inform None [])
      (Inputs.start Inputs.cache).
Proof.
  unfold collectsEveryStageError. intros [Hstatus _].
  vm_compute in Hstatus. discriminate Hstatus.
Qed.

Lemma emitAll_run (E : Env) (conds : list ComplianceEvent) (st : State) :
  emitAll E conds st
  = (flat_map (fun c => optList (emitComplianceEvent E c)) conds,
     mkState (heap st) (requests st ++ map ReqEvent conds) (status st)).
Proof.
  revert st. induction conds as [|c conds IH]; intros st.
  - cbn. unfold ret, mkState. rewrite app_nil_r. destruct st; reflexivity.
  - cbn [emitAll flat_map map]. unfold bind, send, ret. rewrite IH.
    unfold mkState. cbn [heap requests status].
    rewrite <- app_assoc. reflexivity.
Qed.

(** C1 (amended): a stage that returns an error ends the pipeline.
    [handleResources] returns that one error with the events and the
    changed flag gathered so far, in the state the failing stage left:
    the stages after it are not run.  [Reconcile] then returns the
    aggregate of that error and of the errors of the status update and of
    the events. *)
Theorem handleResources_stops_at_first_error (E : Env) (policy : OperatorPolicy)
  (pre post : list Stage) (s : Stage) (p p' : Pipeline) (e : Error)
  (st st1 st2 : State) (reqNamespace reqName : string) :
  stages E policy = pre ++ s :: post ->
  runStages pre emptyPipeline st = ((p, None), st1) ->
  s p st1 = ((p', Some e), st2) ->
  clientGetPolicy E reqNamespace reqName = PolicyFound policy ->
  StartQueryBatch E = None ->
  handleResources E policy st
  = ((earlyComplianceEvents p', condChanged p', Some e), st2)
  /\ fst (Reconcile E reqNamespace reqName st)
     = Some (Aggregate
               (e :: laterErrors E (earlyComplianceEvents p') (condChanged p') st2)).
Proof.
  intros Hstages Hpre Hs Hget Hbatch.
  assert (Hrun : handleResources E policy st
                 = ((earlyComplianceEvents p', condChanged p', Some e), st2)).
  { rewrite handleResources_stages, Hstages.
    rewrite (runStages_stops pre post s emptyPipeline p p' e st st1 st2 Hpre Hs).
    reflexivity. }
  split; [exact Hrun|].
  unfold Reconcile. rewrite Hget, Hbatch. unfold bind at 1. rewrite Hrun.
  unfold laterErrors.
  destruct (condChanged p').
  - unfold bind, send, ret. cbn [heap requests status].
    rewrite emitAll_run. cbn [fst heap requests status optList app aggregate NewAggregate].
    reflexivity.
  - unfold bind, ret. rewrite emitAll_run. rewrite app_nil_r.
    cbn [fst optList app aggregate NewAggregate]. reflexivity.
Qed.

Lemma handleResources_stops_at_first_error_witness :
  let E := Inputs.failingLists in
  let policy := Inputs.policy Inform None [] in
  let st := Inputs.start Inputs.cache in
  let built := runStages [buildStage E policy] emptyPipeline st in
  let failed := opGroupStage E policy (fst (fst built)) (snd built) in
  handleResources E policy st
  = ((earlyComplianceEvents (fst (fst failed)), condChanged (fst (fst failed)),
      Some "error listing OperatorGroups: connection refused"), snd failed)
  /\ fst (Reconcile E "managed" "oppol" st)
     = Some (Aggregate
               ("error listing OperatorGroups: connection refused"
                :: laterErrors E (earlyComplianceEvents (fst (fst failed)))
                     (condChanged (fst (fst failed))) (snd failed))).
Proof.
  intros E policy st built failed.
  apply (handleResources_stops_at_first_error E policy
           [buildStage E policy]
           [subscriptionStage E policy; installPlanStage E policy;
            csvStage E policy; deploymentStage E policy;
            catalogSourceStage E policy]
           (opGroupStage E policy)
           (fst (fst built)) (fst (fst failed))
           "error listing OperatorGroups: connection refused"
           st (snd built) (snd failed) "managed" "oppol");
    reflexivity.
Defined.

(** ** The desired subscription *)

(** C3: in enforce mode with a non-empty list of versions, whatever
    [installPlanApproval] the policy has, the subscription that
    [buildSubscription] builds has the approval mode Manual. *)
Theorem buildSubscription_forces_manual (E : Env) (policy : OperatorPolicy)
  (defaultNS : string) (sub : Subscription) :
  IsEnforce (RemediationAction policy) = true ->
  Versions policy <> [] ->
  fst (buildSubscription E policy defaultNS) = Some sub ->
  InstallPlanApproval (Spec sub) = ApprovalManual.
Proof.
  intros Henforce Hversions Hbuilt.
  unfold buildSubscription in Hbuilt.
  destruct (unmarshalMap (SpecSubscription policy)) as [err|m]; [discriminate|].
  destruct (match getString "namespace" m with
            | Some ns => Some ns
            | None => if String.eqb defaultNS "" then None else Some defaultNS
            end) as [ns|]; [|discriminate].
  destruct (negb (IsDNS1123Label ns)); [discriminate|].
  destruct (decodeSubscriptionSpec E _) as [err|spec]; [discriminate|].
  destruct (negb _); [discriminate|].
  rewrite Henforce in Hbuilt.
  destruct (Versions policy) as [|v vs]; [congruence|].
  cbn in Hbuilt. injection Hbuilt as <-. reflexivity.
Qed.

Lemma buildSubscription_forces_manual_witness :
  let policy := Inputs.policy Enforce None ["quay-operator.v3.8.13"] in
  getString "installPlanApproval" 
    match SpecSubscription policy with Some (JObj m) => m | _ => [] end
  = Some "Automatic"
  /\ buildSubscription Inputs.failingLists policy ""
     = (Some (Inputs.quaySubscription "Manual"), None)
  /\ InstallPlanApproval (Spec (Inputs.quaySubscription "Manual")) = ApprovalManual.
Proof.
  intros policy. split; [reflexivity|]. split; [reflexivity|].
  apply (buildSubscription_forces_manual Inputs.failingLists policy ""
           (Inputs.quaySubscription "Manual"));
    [reflexivity | discriminate | reflexivity].
Defined.

(** ** The merge engine and a dry run *)

(** C5: when the key comparison asks for an update, the dry run succeeds
    and its result, stripped, is deeply equal to the stripped original,
    [mergeObjects] answers that no update is needed. *)
Theorem mergeObjects_dry_run_without_change (E : Env) (desired : JSON)
  (existing : loc) (complianceType : string) (st : State) (merged stored : JSON) :
  existing < length (heap st) ->
  handleKeys E desired (deref (heap st) existing)
    (removeFieldsForComparison E (deref (heap st) existing)) complianceType
  = (merged, "", true) ->
  clientDryRunUpdate E merged = Updated stored ->
  DeepEqual (removeFieldsForComparison E stored)
    (removeFieldsForComparison E (deref (heap st) existing)) = true ->
  fst (mergeObjects E desired existing complianceType st) = (false, false, None).
Proof.
  intros Hvalid Hkeys Hdry Hequal.
  rewrite mergeObjects_run by exact Hvalid.
  unfold mergeOutcome. rewrite Hkeys. cbn [String.eqb negb].
  rewrite Hdry, Hequal. reflexivity.
Qed.

Lemma mergeObjects_forbidden (E : Env) (desired : JSON) (existing : loc)
  (complianceType : string) (st : State) (merged : JSON) :
  existing < length (heap st) ->
  dryRunForbidden E desired (deref (heap st) existing) complianceType merged ->
  mergeObjects E desired existing complianceType st
  = ((true, true, None),
     mkState (<[existing := merged]> (heap st)
              ++ [removeFieldsForComparison E (deref (heap st) existing)])
       (requests st ++ [ReqDryRunUpdate merged]) (status st)).
Proof.
  intros Hvalid [Hkeys [e Hdry]].
  rewrite mergeObjects_run by exact Hvalid.
  unfold mergeOutcome. rewrite Hkeys. cbn [String.eqb negb].
  rewrite Hdry. reflexivity.
Qed.

Lemma deref_copy_written (h : list JSON) (o x c : JSON) :
  deref (<[length h := x]> (h ++ [o]) ++ [c]) (length h) = x.
Proof. apply deref_insert_old. heap_len. Qed.

Lemma deref_copy_old (h : list JSON) (o x c : JSON) (l : loc) :
  l < length h -> deref (<[length h := x]> (h ++ [o]) ++ [c]) l = deref h l.
Proof.
  intros Hl. unfold deref.
  rewrite lookup_app_l by heap_len.
  rewrite list_lookup_insert_ne by lia.
  rewrite lookup_app_l by exact Hl. reflexivity.
Qed.

(** After a forbidden dry run, the subscription reconciler in enforce
    mode reports the unfixable mismatch and sends nothing else. *)
Lemma handleSubscription_forbidden (E : Env) (policy : OperatorPolicy)
  (desired mergedSub : Subscription) (found : loc) (desiredUnstruct merged : JSON)
  (st : State) :
  IsEnforce (RemediationAction policy) = true ->
  watcherGet E subscriptionGVK (subNamespace desired) (subName desired)
  = inr (Some found) ->
  found < length (heap st) ->
  subscriptionToUnstructured E desired = inr desiredUnstruct ->
  dryRunForbidden E desiredUnstruct (deref (heap st) found)
    (ComplianceType policy) merged ->
  subscriptionFromUnstructured E merged = inr mergedSub ->
  let update :=
    (mismatchCondUnfixable "Subscription",
     [mismatchedObj (UnstructuredObject (deref (heap st) found))]) in
  let run := handleSubscription E policy (Some desired) st in
  fst run = (Some mergedSub, [],
             statusChanged E (status st) (fst update) (snd update), None)
  /\ status (snd run) = status st ++ [update]
  /\ requests (snd run) = requests st ++ [ReqDryRunUpdate merged].
Proof.
  intros Henforce Hget Hvalid Hto Hforbidden Hfrom update run.
  subst run update. unfold handleSubscription.
  rewrite Hget, Hto. run_step.
  rewrite mergeObjects_forbidden with (merged := merged).
  2: { cbn [heap]. heap_len. }
  2: { cbn [heap]. rewrite deref_fresh. exact Hforbidden. }
  unfold mkState. cbn [heap requests status].
  rewrite deref_fresh, deref_copy_written, Hfrom.
  cbn [negb]. rewrite Henforce. cbn [andb]. run_step.
  rewrite deref_copy_old by exact Hvalid.
  repeat split.
Qed.

(** After a forbidden dry run, the operator-group reconciler in enforce
    mode reports the unfixable mismatch when the policy specifies the
    operator group, and the pre-existing group otherwise; it sends
    nothing else. *)
Lemma handleOpGroup_forbidden (E : Env) (policy : OperatorPolicy)
  (desired : OperatorGroup) (found : loc) (desiredUnstruct merged : JSON)
  (st : State) :
  IsEnforce (RemediationAction policy) = true ->
  String.eqb (ogNamespace desired) "" = false ->
  watcherList E operatorGroupGVK (ogNamespace desired) = inr [found] ->
  found < length (heap st) ->
  identityMatches desired (deref (heap st) found) = true ->
  operatorGroupToUnstructured E desired = inr desiredUnstruct ->
  dryRunForbidden E desiredUnstruct (deref (heap st) found)
    (ComplianceType policy) merged ->
  let opGroup := UnstructuredObject (deref (heap st) found) in
  let update :=
    if isNil (SpecOperatorGroup policy)
    then (opGroupPreexistingCond, [matchedObj opGroup])
    else (mismatchCondUnfixable "OperatorGroup", [mismatchedObj opGroup]) in
  let run := handleOpGroup E policy (Some desired) st in
  fst run = ([], statusChanged E (status st) (fst update) (snd update), None)
  /\ status (snd run) = status st ++ [update]
  /\ requests (snd run) = requests st ++ [ReqDryRunUpdate merged].
Proof.
  intros Henforce Hns Hlist Hvalid Hid Hto Hforbidden opGroup update run.
  subst run update opGroup. unfold handleOpGroup.
  rewrite Hns, Hlist. unfold handleOpGroupOne. run_step.
  unfold identityMatches in Hid. rewrite Hid. cbn [negb].
  rewrite Hto. run_step.
  rewrite mergeObjects_forbidden with (merged := merged).
  2: { cbn [heap]. heap_len. }
  2: { cbn [heap]. rewrite deref_fresh. exact Hforbidden. }
  unfold mkState. run_step. rewrite deref_fresh.
  rewrite deref_copy_old by exact Hvalid.
  cbn [negb].
  destruct (isNil (SpecOperatorGroup policy)).
  - run_step. repeat split.
  - rewrite Henforce. cbn [andb]. run_step. repeat split.
Qed.

(** C4, as stated, fails for the operator group of a policy that does not
    specify one: in enforce mode, with the dry run forbidden, the
    reconciler reports the pre-existing group as correct. *)
Lemma handleOpGroup_forbidden_without_spec :
  let policy := Inputs.policy Enforce None [] in
  let E := Inputs.cluster policy None [1] Inputs.forbids in
  let st := Inputs.start Inputs.cache in
  fst (buildOperatorGroup E policy "operators") = Some Inputs.defaultGroup
  /\ (exists du merged,
        operatorGroupToUnstructured E Inputs.defaultGroup = inr du
        /\ dryRunForbidden E du Inputs.generatedGroup (ComplianceType policy) merged)
  /\ ~ reportsUnfixable "OperatorGroup" st
         (snd (handleOpGroup E policy (Some Inputs.defaultGroup) st)).
Proof.
  intros policy E st. split; [reflexivity|]. split.
  - eexists. eexists. split; [reflexivity|].
    split; [vm_compute; reflexivity|]. eexists. reflexivity.
  - intros [objs Hobjs]. vm_compute in Hobjs. discriminate Hobjs.
Qed.

(** C4 (amended): when the dry run of the update is forbidden,
    [mergeObjects] answers update needed, update forbidden, no error.  In
    enforce mode the subscription reconciler then reports the unfixable
    mismatch; the operator-group reconciler reports the unfixable
    mismatch when the policy specifies the operator group, and the
    pre-existing group when it does not.  Neither returns an error, and
    neither sends any request but the dry run. *)
Theorem forbidden_update_is_reported (E : Env) (policy : OperatorPolicy)
  (st : State) (found : loc) (desiredUnstruct merged : JSON) :
  IsEnforce (RemediationAction policy) = true ->
  found < length (heap st) ->
  dryRunForbidden E desiredUnstruct (deref (heap st) found)
    (ComplianceType policy) merged ->
  let original := UnstructuredObject (deref (heap st) found) in
  fst (mergeObjects E desiredUnstruct found (ComplianceType policy) st)
  = (true, true, None)
  /\ (forall desired mergedSub,
        watcherGet E subscriptionGVK (subNamespace desired) (subName desired)
        = inr (Some found) ->
        subscriptionToUnstructured E desired = inr desiredUnstruct ->
        subscriptionFromUnstructured E merged = inr mergedSub ->
        let run := handleSubscription E policy (Some desired) st in
        snd (fst run) = None
        /\ status (snd run)
           = status st ++ [(mismatchCondUnfixable "Subscription",
                            [mismatchedObj original])]
        /\ requests (snd run) = requests st ++ [ReqDryRunUpdate merged])
  /\ (forall desired,
        String.eqb (ogNamespace desired) "" = false ->
        watcherList E operatorGroupGVK (ogNamespace desired) = inr [found] ->
        identityMatches desired (deref (heap st) found) = true ->
        operatorGroupToUnstructured E desired = inr desiredUnstruct ->
        let run := handleOpGroup E policy (Some desired) st in
        snd (fst run) = None
        /\ status (snd run)
           = status st ++
             [if isNil (SpecOperatorGroup policy)
              then (opGroupPreexistingCond, [matchedObj original])
              else (mismatchCondUnfixable "OperatorGroup", [mismatchedObj original])]
        /\ requests (snd run) = requests st ++ [ReqDryRunUpdate merged]).
Proof.
  intros Henforce Hvalid Hforbidden original. split; [|split].
  - rewrite mergeObjects_forbidden with (merged := merged) by assumption.
    reflexivity.
  - intros desired mergedSub Hget Hto Hfrom run.
    destruct (handleSubscription_forbidden E policy desired mergedSub found
                desiredUnstruct merged st Henforce Hget Hvalid Hto Hforbidden Hfrom)
      as (Hres & Hstatus & Hreq).
    subst run. rewrite Hres. split; [reflexivity|]. split; assumption.
  - intros desired Hns Hlist Hid Hto run.
    destruct (handleOpGroup_forbidden E policy desired found desiredUnstruct
                merged st Henforce Hns Hlist Hvalid Hid Hto Hforbidden)
      as (Hres & Hstatus & Hreq).
    subst run. rewrite Hres. split; [reflexivity|]. split; assumption.
Qed.

(** ** Operator groups: more than one *)

(** C7: when the list has two operator groups or more, whatever the
    remediation action, the reconciler reports [opGroupTooManyCond], a
    NonCompliant condition, with one related object for each group
    found, returns no error, and sends no request: nothing is created,
    updated or deleted. *)
Theorem handleOpGroup_too_many (E : Env) (policy : OperatorPolicy)
  (desired : OperatorGroup) (st : State) (first second : loc) (others : list loc) :
  String.eqb (ogNamespace desired) "" = false ->
  watcherList E operatorGroupGVK (ogNamespace desired)
  = inr (first :: second :: others) ->
  let found := map (deref (heap st)) (first :: second :: others) in
  let run := handleOpGroup E policy (Some desired) st in
  snd (fst run) = None
  /\ status (snd run) = status st ++ [(opGroupTooManyCond, opGroupTooManyObjs found)]
  /\ opGroupTooManyObjs found = map opGroupTooManyObj found
  /\ length (opGroupTooManyObjs found) = length (first :: second :: others)
  /\ specStatus opGroupTooManyCond = Some ConditionFalse
  /\ requests (snd run) = requests st
  /\ heap (snd run) = heap st.
Proof.
  intros Hns Hlist found run. subst run found.
  unfold handleOpGroup. rewrite Hns, Hlist.
  unfold bind. rewrite loadAll_run. run_step.
  unfold opGroupTooManyObjs. rewrite !length_map.
  repeat split.
Qed.

(** ** A desired object that could not be built *)

(** C8, as stated, fails for the installed-version dimension: without a
    subscription, [handleCSV] reports [noCSVCond], the condition it also
    reports for a valid subscription that has no installed CSV yet. *)
Lemma handleCSV_nil_not_invalid :
  let policy := Inputs.policy Inform None [] in
  let st := Inputs.start Inputs.cache in
  ~ reportsInvalid st (snd (handleCSV Inputs.failingLists policy None st))
  /\ status (snd (handleCSV Inputs.failingLists policy None st))
     = status (snd (handleCSV Inputs.failingLists policy
                      (Some (Inputs.quaySubscription "Automatic")) st)).
Proof.
  intros policy st. split; [|reflexivity].
  intros (kind & objs & H). vm_compute in H. discriminate H.
Qed.

(** C8 (amended): without the object they depend on, the operator-group,
    subscription, install-plan and catalog-source reconcilers report
    [invalidCausingUnknownCond] for their kind; the installed-version
    reconciler reports [noCSVCond] with [noExistingCSVObj], and the
    deployment reconciler, without a CSV, [noDeploymentsCond].  Each of
    them returns no error and does nothing else: no request is sent and
    no object is written. *)
Theorem missing_desired_object (E : Env) (policy : OperatorPolicy) (st : State) :
  (snd (fst (handleOpGroup E policy None st)) = None
   /\ onlyReports st (snd (handleOpGroup E policy None st))
        (invalidCausingUnknownCond "OperatorGroup") [])
  /\ (forall gvk name generateName resourceVersion spec,
        let desired :=
          {| ogGVK := gvk; ogName := name; ogGenerateName := generateName;
             ogNamespace := ""; ogResourceVersion := resourceVersion;
             ogSpec := spec |} in
        snd (fst (handleOpGroup E policy (Some desired) st)) = None
        /\ onlyReports st (snd (handleOpGroup E policy (Some desired) st))
             (invalidCausingUnknownCond "OperatorGroup") [])
  /\ (fst (handleSubscription E policy None st)
      = (None, [], statusChanged E (status st)
                     (invalidCausingUnknownCond "Subscription") [], None)
      /\ onlyReports st (snd (handleSubscription E policy None st))
           (invalidCausingUnknownCond "Subscription") [])
  /\ (snd (fst (handleInstallPlan E policy None st)) = None
      /\ onlyReports st (snd (handleInstallPlan E policy None st))
           (invalidCausingUnknownCond "InstallPlan") [])
  /\ (snd (fst (handleCatalogSource E policy None st)) = None
      /\ onlyReports st (snd (handleCatalogSource E policy None st))
           (invalidCausingUnknownCond "CatalogSource") [])
  /\ (fst (handleCSV E policy None st)
      = (None, statusChanged E (status st) noCSVCond [noExistingCSVObj], None)
      /\ onlyReports st (snd (handleCSV E policy None st))
           noCSVCond [noExistingCSVObj])
  /\ (snd (fst (handleDeployment E policy None st)) = None
      /\ onlyReports st (snd (handleDeployment E policy None st))
           noDeploymentsCond [noExistingDeploymentObj]).
Proof.
  unfold onlyReports, mkState.
  repeat split; reflexivity.
Qed.

(** ** The watch cache is not written *)

Lemma handleSubscription_keeps (E : Env) (policy : OperatorPolicy)
  (desiredSub : option Subscription) (st : State) :
  keeps (length (heap st)) st (snd (handleSubscription E policy desiredSub st)).
Proof.
  unfold handleSubscription.
  destruct desiredSub as [desired|]; [|run_step; heap_frame].
  destruct (watcherGet E subscriptionGVK (subNamespace desired) (subName desired))
    as [err|[found|]].
  - run_step. heap_frame.
  - destruct (subscriptionToUnstructured E desired) as [err|desiredUnstruct];
      [run_step; heap_frame|].
    run_step.
    match goal with
    | |- context [mergeObjects E ?d ?l ?c ?s] =>
        pose proof (mergeObjects_keeps E d l c s (length (heap st))) as Hk;
        destruct (mergeObjects E d l c s) as [[[updateNeeded skipUpdate] err] st2]
    end.
    cbn [heap snd] in Hk.
    assert (Hk' := Hk ltac:(heap_len) ltac:(lia)). clear Hk.
    unfold handleSubscriptionMatched.
    after_merge Hk'.
  - run_step. destruct (IsInform _); [heap_frame|].
    run_step. destruct (clientCreateSubscription E desired); heap_frame.
Qed.

(** C9: the operator-group and subscription reconcilers hand a copy to
    the merge engine and to the update, so every object that exists when
    they start, the objects of the watch cache among them, has the same
    content when they return. *)
Theorem reconcilers_keep_the_cache (E : Env) (policy : OperatorPolicy) (st : State)
  (desiredOpGroup : option OperatorGroup) (desiredSub : option Subscription)
  (cached : loc) :
  cached < length (heap st) ->
  deref (heap (snd (handleOpGroup E policy desiredOpGroup st))) cached
  = deref (heap st) cached
  /\ deref (heap (snd (handleSubscription E policy desiredSub st))) cached
     = deref (heap st) cached.
Proof.
  intros Hcached. unfold deref. split.
  - destruct (handleOpGroup_keeps E policy desiredOpGroup st) as [_ H].
    rewrite H by exact Hcached. reflexivity.
  - destruct (handleSubscription_keeps E policy desiredSub st) as [_ H].
    rewrite H by exact Hcached. reflexivity.
Qed.

(** ** Install plans awaiting approval *)

Lemma loadPairs_run (ls : list loc) (st : State) :
  loadPairs ls st = (map (fun l => (l, deref (heap st) l)) ls, st).
Proof.
  induction ls as [|l ls IH]; [reflexivity|].
  cbn [loadPairs]. unfold bind, load, ret. rewrite IH. reflexivity.
Qed.

Lemma obj_get_set (k : string) (v : JSON) (m : list (string * JSON)) :
  obj_get k (obj_set k v m) = Some v.
Proof.
  induction m as [|[k' v'] m IH]; cbn.
  - rewrite String.eqb_refl. reflexivity.
  - destruct (String.eqb k k') eqn:Hk; cbn; rewrite ?String.eqb_refl, ?Hk; auto.
Qed.

(** A plan whose [spec.clusterServiceVersionNames] can be read has a map
    at [spec], so that setting [spec.approved] cannot fail. *)
Lemma approve_succeeds (ip : JSON) (csvNames : list string) :
  NestedStringSlice ip ["spec"; "clusterServiceVersionNames"] = NFound csvNames ->
  exists approved,
    SetNestedField ip (JBool true) ["spec"; "approved"] = inr approved
    /\ NestedFieldNoCopy approved ["spec"; "approved"] = NFound (JBool true).
Proof.
  unfold NestedStringSlice, SetNestedField. cbn [NestedFieldNoCopy setNested].
  destruct ip as [| | | |l|m]; try discriminate.
  destruct (obj_get "spec" m) as [spec|] eqn:Hspec; [|discriminate].
  destruct spec as [| | | |l|sm]; try discriminate.
  intros _. eexists. split; [reflexivity|].
  cbn [NestedFieldNoCopy]. rewrite obj_get_set.
  rewrite obj_get_set. reflexivity.
Qed.

Lemma approvableVersion_spec (versions : list string) (ip : JSON) (csv : string) :
  approvableVersion versions ip = Some csv
  <-> NestedStringSlice ip ["spec"; "clusterServiceVersionNames"] = NFound [csv]
      /\ (versions = [] \/ In csv versions).
Proof.
  unfold approvableVersion.
  destruct (NestedStringSlice ip _) as [[|c [|c' l]]| |e].
  all: try (split; [discriminate | intros [H _]; discriminate H]).
  split.
  - destruct (Nat.eqb (length versions) 0 || existsb (String.eqb c) versions)
      eqn:Hok; [|discriminate].
    intros H. injection H as <-. split; [reflexivity|].
    apply orb_true_iff in Hok. destruct Hok as [Hlen|Hex].
    + left. apply Nat.eqb_eq in Hlen. destruct versions; [reflexivity|discriminate].
    + right. apply existsb_exists in Hex. destruct Hex as (x & Hin & Hx).
      apply String.eqb_eq in Hx. subst x. exact Hin.
  - intros [H Hv]. injection H as ->.
    assert (Hok : Nat.eqb (length versions) 0 || existsb (String.eqb csv) versions
                  = true).
    { apply orb_true_iff. destruct Hv as [->|Hin]; [left; reflexivity|].
      right. apply existsb_exists. exists csv. split; [exact Hin|].
      apply String.eqb_refl. }
    rewrite Hok. reflexivity.
Qed.

Lemma approvedVersionOf_none (versions : list string) (pending : list (loc * JSON))
  (acc : string) :
  List.filter (fun p => isApprovable versions (snd p)) pending = [] ->
  fold_left (fun acc ip => match approvableVersion versions ip with
                           | Some v => v
                           | None => acc
                           end) (map snd pending) acc = acc.
Proof.
  induction pending as [|[l v] pending IH]; intros Hf; [reflexivity|].
  cbn [List.filter snd map fold_left] in Hf |- *. unfold isApprovable in Hf at 1.
  destruct (approvableVersion versions v); cbn [isSome] in Hf; [discriminate|].
  apply IH. exact Hf.
Qed.

(** With exactly one approvable plan, [approvedVersion] is its version. *)
Lemma approvedVersionOf_single (versions : list string) (pending : list (loc * JSON))
  (ipLoc : loc) (ip : JSON) (csv acc : string) :
  List.filter (fun p => isApprovable versions (snd p)) pending = [(ipLoc, ip)] ->
  approvableVersion versions ip = Some csv ->
  fold_left (fun acc ip => match approvableVersion versions ip with
                           | Some v => v
                           | None => acc
                           end) (map snd pending) acc = csv.
Proof.
  revert acc. induction pending as [|[l v] pending IH]; intros acc Hf Hv.
  - discriminate Hf.
  - cbn [List.filter snd map fold_left] in Hf |- *. unfold isApprovable in Hf at 1.
    destruct (approvableVersion versions v) as [w|] eqn:Hw; cbn [isSome] in Hf.
    + injection Hf as -> -> Hrest.
      rewrite Hv in Hw. injection Hw as <-.
      apply approvedVersionOf_none. exact Hrest.
    + apply IH; assumption.
Qed.

Lemma deref_valid (h : list JSON) (l : loc) :
  deref h l <> JNull -> l < length h.
Proof.
  unfold deref. destruct (h !! l) eqn:Hl; [|congruence].
  intros _. apply lookup_lt_Some in Hl. exact Hl.
Qed.

Lemma deref_insert_same (h : list JSON) (x : JSON) (l : loc) :
  l < length h -> deref (<[l := x]> h) l = x.
Proof.
  intros H. unfold deref. rewrite list_lookup_insert_eq by exact H. reflexivity.
Qed.

Lemma approvedVersionOf_only (versions : list string) (pending : list (loc * JSON))
  (ipLoc : loc) (ip : JSON) (csv : string) :
  approvablePlans versions pending = [(ipLoc, ip)] ->
  approvableVersion versions ip = Some csv ->
  approvedVersionOf versions (map snd pending) = csv.
Proof. apply approvedVersionOf_single. Qed.

(** The run up to the choice on the approvable plans. *)
Lemma handleInstallPlan_pending (E : Env) (policy : OperatorPolicy)
  (sub : Subscription) (st : State) (found : list loc) :
  let owned := ownedPlans sub (plansAt st found) in
  let pending := pendingPlans owned in
  let approvable := approvablePlans (Versions policy) pending in
  IsEnforce (RemediationAction policy) = true ->
  watcherList E installPlanGVK (subNamespace sub) = inr found ->
  currentPlanFailed sub owned = false ->
  anyInstalling owned = false ->
  pending <> [] ->
  handleInstallPlan E policy (Some sub) st
  = match approvable with
    | [(ipLoc, ip)] =>
        match SetNestedField ip (JBool true) ["spec"; "approved"] with
        | inl err => ret (false, Some (wrapErr "error approving InstallPlan" err))
        | inr ip' =>
            (store ipLoc ip' ;;;
             err <- UpdateCopy E ipLoc ;;
             match err with
             | Some err =>
                 ret (false, Some (wrapErr "error updating approved InstallPlan" err))
             | None =>
                 changed <- updateStatus E
                              (installPlanApprovedCond
                                 (approvedVersionOf (Versions policy) (map snd pending)))
                              (relatedPlans owned) ;;
                 ret (changed, None)
             end)%go
        end
    | _ =>
        (changed <- updateStatus E
                      (installPlanUpgradeCond (upgradeVersions pending)
                         (map snd approvable))
                      (relatedPlans owned) ;;
         ret (changed, None))%go
    end st.
Proof.
  intros owned pending approvable enforce listed noneFailed noneInstalling somePending.
  unfold handleInstallPlan. rewrite listed.
  unfold bind at 1. rewrite loadPairs_run.
  change (map (fun l => (l, deref (heap st) l)) found) with (plansAt st found).
  change (ownedPlans sub (plansAt st found)) with owned.
  change (pendingPlans owned) with pending.
  change (approvablePlans (Versions policy) pending) with approvable.
  rewrite noneFailed, noneInstalling.
  assert (Hinform : IsInform (RemediationAction policy) = false).
  { destruct (RemediationAction policy); [discriminate enforce|reflexivity]. }
  rewrite Hinform.
  assert (Howned : owned <> []).
  { intros Howned. apply somePending. unfold pending. rewrite Howned. reflexivity. }
  destruct owned as [|o owned']; [congruence|].
  destruct pending as [|q pending']; [congruence|].
  reflexivity.
Qed.

(** C2: in enforce mode, with install plans awaiting approval, none
    installing and the current one not failed: a plan can be approved
    only if it lists exactly one CSV and that CSV is in [spec.versions],
    or [spec.versions] is empty.  With exactly one such plan, its
    [spec.approved] is set to true and sent in an update and, once the
    cluster accepts the update, the condition is the Compliant
    [installPlanApprovedCond] with the version of that plan.  With none
    or several, nothing is sent or written and the condition is the
    NonCompliant [installPlanUpgradeCond]. *)
Theorem handleInstallPlan_approval (E : Env) (policy : OperatorPolicy)
  (sub : Subscription) (st : State) (found : list loc) :
  let owned := ownedPlans sub (plansAt st found) in
  let pending := pendingPlans owned in
  let approvable := approvablePlans (Versions policy) pending in
  let run := handleInstallPlan E policy (Some sub) st in
  IsEnforce (RemediationAction policy) = true ->
  watcherList E installPlanGVK (subNamespace sub) = inr found ->
  currentPlanFailed sub owned = false ->
  anyInstalling owned = false ->
  pending <> [] ->
  (forall p,
     In p approvable <->
     In p pending
     /\ exists csv,
          NestedStringSlice (snd p) ["spec"; "clusterServiceVersionNames"]
          = NFound [csv]
          /\ (Versions policy = [] \/ In csv (Versions policy)))
  /\ (forall ipLoc ip,
        approvable = [(ipLoc, ip)] ->
        exists csv approved,
          NestedStringSlice ip ["spec"; "clusterServiceVersionNames"] = NFound [csv]
          /\ SetNestedField ip (JBool true) ["spec"; "approved"] = inr approved
          /\ NestedFieldNoCopy approved ["spec"; "approved"] = NFound (JBool true)
          /\ requests (snd run) = requests st ++ [ReqUpdate approved]
          /\ (replyErr (clientUpdate E approved) = None ->
              snd (fst run) = None
              /\ status (snd run)
                 = status st ++ [(installPlanApprovedCond csv, relatedPlans owned)]
              /\ specStatus (installPlanApprovedCond csv) = Some ConditionTrue))
  /\ (length approvable <> 1 ->
      snd (fst run) = None
      /\ status (snd run)
         = status st ++ [(installPlanUpgradeCond (upgradeVersions pending)
                            (map snd approvable), relatedPlans owned)]
      /\ specStatus (installPlanUpgradeCond (upgradeVersions pending)
                       (map snd approvable)) = Some ConditionFalse
      /\ requests (snd run) = requests st
      /\ heap (snd run) = heap st).
Proof.
  intros owned pending approvable run enforce listed noneFailed noneInstalling
    somePending.
  subst run.
  rewrite (handleInstallPlan_pending E policy sub st found enforce listed
             noneFailed noneInstalling somePending).
  change (ownedPlans sub (plansAt st found)) with owned.
  change (pendingPlans owned) with pending.
  change (approvablePlans (Versions policy) pending) with approvable.
  split; [|split].
  - intros p. unfold approvable, approvablePlans. rewrite filter_In.
    unfold isApprovable. split.
    + intros [Hin Hok]. split; [exact Hin|].
      destruct (approvableVersion (Versions policy) (snd p)) as [csv|] eqn:Hv;
        [|discriminate Hok].
      exists csv. apply approvableVersion_spec. exact Hv.
    + intros [Hin (csv & Hcsv)]. split; [exact Hin|].
      apply approvableVersion_spec in Hcsv. rewrite Hcsv. reflexivity.
  - intros ipLoc ip Hone. rewrite Hone.
    assert (Hin : In (ipLoc, ip) approvable) by (rewrite Hone; left; reflexivity).
    unfold approvable, approvablePlans in Hin. apply filter_In in Hin.
    destruct Hin as [Hpend Hok].
    cbn [snd] in Hok. unfold isApprovable in Hok.
    destruct (approvableVersion (Versions policy) ip) as [csv|] eqn:Hv;
      [|discriminate Hok].
    pose proof Hv as Hspec. apply approvableVersion_spec in Hspec.
    destruct Hspec as [Hnames _].
    destruct (approve_succeeds ip [csv] Hnames) as (approved & Hset & Happroved).
    exists csv, approved. rewrite Hset.
    assert (Hip : ip = deref (heap st) ipLoc).
    { unfold pending, pendingPlans, owned, ownedPlans in Hpend.
      apply filter_In in Hpend. destruct Hpend as [Hpend _].
      apply filter_In in Hpend. destruct Hpend as [Hpend _].
      unfold plansAt in Hpend. apply in_map_iff in Hpend.
      destruct Hpend as (l & Hl & _). injection Hl as <- <-. reflexivity. }
    assert (Hvalid : ipLoc < length (heap st)).
    { apply deref_valid. rewrite <- Hip. intros ->. discriminate Hv. }
    split; [exact Hnames|]. split; [reflexivity|]. split; [exact Happroved|].
    run_step. rewrite !deref_insert_same by exact Hvalid.
    split.
    + destruct (clientUpdate E approved); reflexivity.
    + intros Haccepted.
      destruct (clientUpdate E approved) as [stored|e|e]; try discriminate Haccepted.
      run_step.
      rewrite (approvedVersionOf_only (Versions policy) pending ipLoc ip csv)
        by assumption.
      repeat split.
  - intros Hlen.
    destruct approvable as [|[l v] [|a rest']] eqn:Ha.
    + run_step. repeat split.
    + exfalso. apply Hlen. reflexivity.
    + run_step. repeat split.
Qed.

(** ** The correlation of a resolution failure with a subscription *)

Lemma append_assoc (a b c : string) : ((a ++ b) ++ c = a ++ (b ++ c))%string.
Proof. induction a as [|x a IH]; cbn; [reflexivity|]. rewrite IH. reflexivity. Qed.

Lemma stripPrefix_spec (p s r : string) :
  stripPrefix p s = Some r <-> s = (p ++ r)%string.
Proof.
  revert s. induction p as [|c p IH]; intros s; cbn.
  - split; [intros H; injection H as ->; reflexivity | intros ->; reflexivity].
  - destruct s as [|d s]; [split; discriminate|].
    destruct (Ascii.eqb c d) eqn:Hcd.
    + apply Ascii.eqb_eq in Hcd. subst d. rewrite IH.
      split; [intros ->; reflexivity | intros H; injection H as ->; reflexivity].
    + split; [discriminate|]. intros H. injection H as -> _.
      rewrite Ascii.eqb_refl in Hcd. discriminate Hcd.
Qed.

Lemma matchFront_denotes (re : Regexp) (s r : string) :
  In r (matchFront re s) <-> denotes re s r.
Proof.
  revert s r. induction re as [l| | |a IHa b IHb|a IHa b IHb]; intros s r;
    cbn [matchFront denotes].
  - destruct (stripPrefix l s) as [r'|] eqn:Hs.
    + apply stripPrefix_spec in Hs. subst s. cbn. split.
      * intros [->|[]]. reflexivity.
      * intros H. left. clear -H. induction l as [|c l IH]; cbn in H.
        -- exact H.
        -- injection H as H. apply IH. exact H.
    + cbn. split; [intros []|]. intros ->.
      assert (H : stripPrefix l (l ++ r)%string = Some r)
        by (apply stripPrefix_spec; reflexivity).
      congruence.
  - destruct s; cbn.
    + split; [intros [<-|[]]; split; reflexivity | intros [_ ->]; left; reflexivity].
    + split; [intros [] | intros [H _]; discriminate H].
  - destruct s as [|c s]; cbn.
    + split; [intros [] | intros (c & _ & H); discriminate H].
    + destruct (isPerlSpace c) eqn:Hc; cbn.
      * split.
        -- intros [<-|[]]. exists c. split; [exact Hc|reflexivity].
        -- intros (d & _ & H). injection H as _ ->. left. reflexivity.
      * split; [intros []|]. intros (d & Hd & H). injection H as -> _. congruence.
  - rewrite in_app_iff, IHa, IHb. reflexivity.
  - rewrite in_flat_map. split.
    + intros (mid & Ha & Hb). exists mid. rewrite <- IHa, <- IHb. split; assumption.
    + intros (mid & Ha & Hb). exists mid. rewrite IHa, IHb. split; assumption.
Qed.

Lemma search_spec (re : Regexp) (s : string) :
  search re s = true
  <-> exists before rest r, s = (before ++ rest)%string /\ denotes re rest r.
Proof.
  induction s as [|c s IH]; cbn [search].
  - rewrite orb_false_r. unfold matchesFront. split.
    + destruct (matchFront re "") as [|r l] eqn:Hm; [discriminate|]. intros _.
      exists "", "", r. split; [reflexivity|].
      apply matchFront_denotes. rewrite Hm. left. reflexivity.
    + intros (before & rest & r & Hs & Hd).
      destruct before; [|discriminate Hs]. cbn in Hs. subst rest.
      apply matchFront_denotes in Hd. destruct (matchFront re ""); [destruct Hd|].
      reflexivity.
  - rewrite orb_true_iff, IH. unfold matchesFront. split.
    + intros [Hhere|(before & rest & r & Hs & Hd)].
      * destruct (matchFront re (String c s)) as [|r l] eqn:Hm; [discriminate|].
        exists "", (String c s), r. split; [reflexivity|].
        apply matchFront_denotes. rewrite Hm. left. reflexivity.
      * exists (String c before), rest, r. split; [cbn; rewrite Hs; reflexivity|].
        exact Hd.
    + intros (before & rest & r & Hs & Hd). destruct before as [|d before].
      * left. cbn in Hs. subst rest. apply matchFront_denotes in Hd.
        destruct (matchFront re (String c s)); [destruct Hd|]. reflexivity.
      * right. cbn in Hs. injection Hs as -> ->.
        exists before, rest, r. split; [reflexivity|exact Hd].
Qed.

Lemma denotes_end (s r : string) :
  denotes (Alt EndText (Alt PerlSpace (Alt (Lit ",") (Lit ":")))) s r
  -> endsName s.
Proof.
  cbn. intros [[-> _]|[(c & Hc & ->)|[->| ->]]].
  - left. reflexivity.
  - right. exists c, r. split; [reflexivity|]. left. exact Hc.
  - right. exists ","%char, r. split; [reflexivity|]. right. left. reflexivity.
  - right. exists ":"%char, r. split; [reflexivity|]. right. right. reflexivity.
Qed.

Lemma endsName_denotes (s : string) :
  endsName s ->
  exists r, denotes (Alt EndText (Alt PerlSpace (Alt (Lit ",") (Lit ":")))) s r.
Proof.
  intros [->|(c & rest & -> & [Hc|[->| ->]])].
  - exists "". left. split; reflexivity.
  - exists rest. right. left. exists c. split; [exact Hc|reflexivity].
  - exists rest. right. right. left. reflexivity.
  - exists rest. right. right. right. reflexivity.
Qed.

Lemma messageIncludesSubscription_spec (sub : Subscription) (message : string) :
  messageIncludesSubscription sub message = (true, None)
  <-> compiles (subscriptionRegexp sub) = true /\ mentions sub message.
Proof.
  unfold messageIncludesSubscription, MatchString.
  destruct (compiles (subscriptionRegexp sub)).
  2: { split; [discriminate | intros [H _]; discriminate H]. }
  assert (Hs : search (subscriptionRegexp sub) message = true <-> mentions sub message).
  { rewrite search_spec. unfold mentions, subscriptionRegexp. split.
    - intros (before & rest & r & Hm & Hd). cbn [denotes] in Hd.
      destruct Hd as (mid & Hname & Hend).
      assert (Hends : endsName mid) by (eapply denotes_end; cbn [denotes]; exact Hend).
      destruct Hname as [(m1 & -> & Hn)|(m1 & -> & Hn)].
      + exists before, "subscription ". destruct Hn as [-> | ->].
        * exists (subName sub), mid. split; [exact Hm|]. split; [|exact Hends].
          left. split; [reflexivity|]. left. reflexivity.
        * exists (subNamespace sub ++ "/" ++ subName sub)%string, mid.
          split; [exact Hm|]. split; [|exact Hends].
          left. split; [reflexivity|]. right. reflexivity.
      + exists before, "package ". destruct Hn as [-> | ->].
        * exists (Package (Spec sub)), mid. split; [exact Hm|]. split; [|exact Hends].
          right. split; [reflexivity|]. left. reflexivity.
        * exists (subNamespace sub ++ "/" ++ Package (Spec sub))%string, mid.
          split; [exact Hm|]. split; [|exact Hends].
          right. split; [reflexivity|]. right. reflexivity.
    - intros (before & keyword & name & rest & Hm & Hwhich & Hends).
      destruct (endsName_denotes rest Hends) as (r & Hr).
      exists before, (keyword ++ name ++ rest)%string, r. split; [exact Hm|].
      cbn [denotes]. exists rest. split; [|exact Hr].
      destruct Hwhich as [[-> Hn]|[-> Hn]].
      + left. exists (name ++ rest)%string. split; [reflexivity|].
        destruct Hn as [-> | ->]; [left|right]; reflexivity.
      + right. exists (name ++ rest)%string. split; [reflexivity|].
        destruct Hn as [-> | ->]; [left|right]; reflexivity. }
  split.
  - intros H. injection H as H. split; [reflexivity|]. apply Hs. exact H.
  - intros [_ H]. apply Hs in H. rewrite H. reflexivity.
Qed.

Lemma mergeObjects_status (E : Env) (desired : JSON) (existing : loc)
  (complianceType : string) (st : State) :
  existing < length (heap st) ->
  status (snd (mergeObjects E desired existing complianceType st)) = status st.
Proof.
  intros Hvalid. rewrite mergeObjects_run by exact Hvalid. unfold mergeOutcome.
  destruct (handleKeys _ _ _ _ _) as [[merged errMsg] updateNeeded].
  destruct (negb _); [reflexivity|].
  destruct updateNeeded; [|reflexivity].
  destruct (clientDryRunUpdate E merged); reflexivity.
Qed.

Section FoundSubscription.

Variables (E : Env) (policy : OperatorPolicy) (desired mergedSub : Subscription).
Variables (st st2 : State) (found : loc) (desiredUnstruct : JSON) (skipUpdate : bool).

(** The subscription is found, and the merge engine, given a copy of it,
    answers that no update is needed. *)
Hypothesis isFound :
  watcherGet E subscriptionGVK (subNamespace desired) (subName desired)
  = inr (Some found).
Hypothesis isValid : found < length (heap st).
Hypothesis converted : subscriptionToUnstructured E desired = inr desiredUnstruct.
Hypothesis merged :
  mergeObjects E desiredUnstruct (fst (DeepCopy found st)) (ComplianceType policy)
    (snd (DeepCopy found st))
  = ((false, skipUpdate, None), st2).
Hypothesis typed :
  subscriptionFromUnstructured E (deref (heap st2) (fst (DeepCopy found st)))
  = inr mergedSub.

Lemma handleSubscription_no_update :
  handleSubscription E policy (Some desired) st
  = handleSubscriptionMatched E mergedSub found st2.
Proof using isFound converted merged typed.
  unfold handleSubscription. rewrite isFound, converted.
  unfold bind at 1. destruct (DeepCopy found st) as [copy st1] eqn:Hcopy.
  cbn [fst snd] in merged, typed.
  unfold bind at 1. rewrite merged.
  unfold bind at 1. unfold load at 1. rewrite typed. reflexivity.
Qed.

Lemma found_unchanged :
  status st2 = status st /\ deref (heap st2) found = deref (heap st) found.
Proof using isValid merged.
  assert (Hcopy : fst (DeepCopy found st) < length (heap (snd (DeepCopy found st))))
    by (cbn [DeepCopy fst snd heap]; heap_len).
  split.
  - pose proof (mergeObjects_status E desiredUnstruct _ (ComplianceType policy) _ Hcopy)
      as H. rewrite merged in H. exact H.
  - pose proof (mergeObjects_keeps E desiredUnstruct _ (ComplianceType policy) _
                  (length (heap st)) Hcopy ltac:(cbn; lia)) as [_ H].
    rewrite merged in H. cbn [snd] in H. unfold deref.
    rewrite H by exact isValid. cbn [DeepCopy snd heap].
    rewrite lookup_app_l by exact isValid. reflexivity.
Qed.

(** C6: the correlation check answers true only for a message that has
    the name of the subscription or of its package, with or without the
    namespace, right after "subscription " or "package " and ended by
    the end of the message, white space, a comma or a colon; so the
    packages gatekeeper-operator and gatekeeper-operator-product are not
    taken for each other.  When the namespace reports a resolution
    failure whose message does not mention this subscription, the
    subscription that needs no update is reported as matching. *)
Theorem unrelated_resolution_failure :
  (forall sub message,
     messageIncludesSubscription sub message = (true, None)
     <-> compiles (subscriptionRegexp sub) = true /\ mentions sub message)
  /\ messageIncludesSubscription
       (Inputs.named "gatekeeper-operator-product" "Automatic")
       (Inputs.noOperatorsFound "gatekeeper-operator") = (false, None)
  /\ messageIncludesSubscription
       (Inputs.named "gatekeeper-operator" "Automatic")
       (Inputs.noOperatorsFound "gatekeeper-operator-product") = (false, None)
  /\ messageIncludesSubscription
       (Inputs.named "gatekeeper-operator" "Automatic")
       (Inputs.noOperatorsFound "gatekeeper-operator") = (true, None)
  /\ (scStatus (resolutionFailure mergedSub) = ConditionTrue ->
      messageIncludesSubscription mergedSub (scMessage (resolutionFailure mergedSub))
      = (false, None) ->
      let run := handleSubscription E policy (Some desired) st in
      fst run = (Some mergedSub, [],
                 statusChanged E (status st) (matchesCond "Subscription")
                   [matchedObj (UnstructuredObject (deref (heap st) found))], None)
      /\ status (snd run)
         = status st ++ [(matchesCond "Subscription",
                          [matchedObj (UnstructuredObject (deref (heap st) found))])]
      /\ specStatus (matchesCond "Subscription") = Some ConditionTrue).
Proof using isFound isValid converted merged typed.
  split; [exact messageIncludesSubscription_spec|].
  split; [reflexivity|]. split; [reflexivity|]. split; [reflexivity|].
  intros Hfailed Hunrelated run. subst run.
  rewrite handleSubscription_no_update.
  destruct found_unchanged as [Hstatus Hfound].
  unfold handleSubscriptionMatched.
  rewrite Hfailed, Hunrelated, String.eqb_refl. cbn [isSome].
  run_step. rewrite Hstatus, Hfound. repeat split.
Qed.

(** C10: when the correlation check itself fails, the reconciler takes
    the resolution failure as one of this subscription: the condition it
    reports has the status False, with the reason and the message of the
    failure, and not the matching condition. *)
Theorem failed_correlation_check (e : Error) :
  scStatus (resolutionFailure mergedSub) = ConditionTrue ->
  snd (messageIncludesSubscription mergedSub (scMessage (resolutionFailure mergedSub))) = Some e ->
  let run := handleSubscription E policy (Some desired) st in
  exists cond,
    status (snd run)
    = status st ++ [(literalCond cond,
                     [nonCompObj (UnstructuredObject (deref (heap st) found))
                        (scReason (resolutionFailure mergedSub))])]
    /\ condType cond = subConditionType
    /\ condStatus cond = ConditionFalse
    /\ condReason cond = scReason (resolutionFailure mergedSub)
    /\ condMessage cond = scMessage (resolutionFailure mergedSub)
    /\ snd (fst run) = None.
Proof using isFound isValid converted merged typed.
  intros Hfailed Herr run. subst run.
  rewrite handleSubscription_no_update.
  destruct found_unchanged as [Hstatus Hfound].
  unfold handleSubscriptionMatched.
  rewrite Hfailed, String.eqb_refl.
  destruct (messageIncludesSubscription mergedSub
              (scMessage (resolutionFailure mergedSub))) as [includes err].
  cbn [snd] in Herr. subst err. cbn [isSome].
  run_step. rewrite Hstatus, Hfound.
  eexists. split; [reflexivity|]. repeat split.
Qed.

End FoundSubscription.

(** ** The theorems on the concrete cluster *)

Lemma handleInstallPlan_approval_witness :
  let policy := Inputs.policy Enforce None ["quay-operator.v3.8.13"] in
  let E := Inputs.cluster policy (Some 3) [1] Inputs.accepts in
  let run := handleInstallPlan E policy (Some (Inputs.quaySubscription "Manual"))
               (Inputs.start Inputs.cache) in
  snd (fst run) = None
  /\ map fst (status (snd run)) = [installPlanApprovedCond "quay-operator.v3.8.13"]
  /\ NestedFieldNoCopy (deref (heap (snd run)) 6) ["spec"; "approved"]
     = NFound (JBool true)
  /\ NestedFieldNoCopy (deref (heap (snd run)) 7) ["spec"; "approved"]
     = NFound (JBool false).
Proof.
  intros policy E run.
  destruct (handleInstallPlan_approval E policy (Inputs.quaySubscription "Manual")
              (Inputs.start Inputs.cache) [6; 7]
              eq_refl eq_refl eq_refl eq_refl ltac:(discriminate))
    as (_ & Hone & _).
  destruct (Hone 6 (deref Inputs.cache 6) eq_refl)
    as (csv & approved & Hnames & Hset & _ & _ & Haccepted).
  injection Hnames as <-. injection Hset as <-.
  destruct (Haccepted eq_refl) as (Herr & Hstatus & _).
  split; [exact Herr|].
  split; [exact (eq_trans (f_equal (map fst) Hstatus) eq_refl)|].
  split; reflexivity.
Defined.

Lemma mergeObjects_dry_run_without_change_witness :
  let policy := Inputs.policy Enforce (Some Inputs.groupSpec) [] in
  let E := Inputs.cluster policy None [1] (fun _ => Updated Inputs.generatedGroup) in
  let desired := Inputs.unstructured (Sample.fromOperatorGroup Inputs.specifiedGroup) in
  snd (handleKeys E desired Inputs.generatedGroup
         (removeFieldsForComparison E Inputs.generatedGroup) "musthave") = true
  /\ fst (mergeObjects E desired 1 "musthave" (Inputs.start Inputs.cache))
     = (false, false, None).
Proof.
  intros policy E desired. split; [reflexivity|].
  apply (mergeObjects_dry_run_without_change E desired 1 "musthave"
           (Inputs.start Inputs.cache)
           (Inputs.mergedWith (Sample.fromOperatorGroup Inputs.specifiedGroup)
              Inputs.generatedGroup)
           Inputs.generatedGroup);
    [cbn; lia | reflexivity | reflexivity | reflexivity].
Defined.

Lemma forbidden_update_is_reported_witness :
  let policy := Inputs.policy Enforce (Some Inputs.groupSpec) [] in
  let st := Inputs.start Inputs.cache in
  let groups := Inputs.cluster policy None [1] Inputs.forbids in
  let subs := Inputs.cluster policy (Some 3) [1] Inputs.forbids in
  let group := Inputs.unstructured (Sample.fromOperatorGroup Inputs.specifiedGroup) in
  (fst (mergeObjects groups group 1 "musthave" st) = (true, true, None)
   /\ fst (handleOpGroup groups policy (Some Inputs.specifiedGroup) st)
      = ([], true, None)
   /\ map fst (status (snd (handleOpGroup groups policy
                              (Some Inputs.specifiedGroup) st)))
      = [mismatchCondUnfixable "OperatorGroup"])
  /\ (snd (fst (handleSubscription subs policy
                  (Some (Inputs.quaySubscription "Automatic")) st)) = None
      /\ map fst (status (snd (handleSubscription subs policy
                                 (Some (Inputs.quaySubscription "Automatic")) st)))
         = [mismatchCondUnfixable "Subscription"]).
Proof.
  intros policy st groups subs group. split.
  - destruct (forbidden_update_is_reported groups policy st 1 group
                (Inputs.mergedWith (Sample.fromOperatorGroup Inputs.specifiedGroup)
                   Inputs.generatedGroup)
                eq_refl ltac:(cbn; lia)
                (conj eq_refl (ex_intro _ "field is immutable" eq_refl)))
      as (Hmerge & _ & Hgroup).
    split; [exact Hmerge|].
    destruct (Hgroup Inputs.specifiedGroup eq_refl eq_refl eq_refl eq_refl)
      as (_ & Hstatus & _).
    split; [reflexivity|]. exact (eq_trans (f_equal (map fst) Hstatus) eq_refl).
  - destruct (forbidden_update_is_reported subs policy st 3
                (Inputs.unstructured
                   (Sample.fromSubscription (Inputs.quaySubscription "Automatic")))
                (Inputs.mergedWith
                   (Sample.fromSubscription (Inputs.quaySubscription "Automatic"))
                   (deref Inputs.cache 3))
                eq_refl ltac:(cbn; lia)
                (conj eq_refl (ex_intro _ "field is immutable" eq_refl)))
      as (_ & Hsub & _).
    destruct (Hsub (Inputs.quaySubscription "Automatic")
                (Inputs.typed
                   (Inputs.mergedWith
                      (Sample.fromSubscription (Inputs.quaySubscription "Automatic"))
                      (deref Inputs.cache 3)))
                eq_refl eq_refl eq_refl)
      as (Herr & Hstatus & _).
    split; [exact Herr|]. exact (eq_trans (f_equal (map fst) Hstatus) eq_refl).
Defined.

Lemma handleOpGroup_too_many_witness :
  let policy := Inputs.policy Enforce None [] in
  let E := Inputs.cluster policy None [1; 2] Inputs.accepts in
  let run := handleOpGroup E policy (Some Inputs.defaultGroup)
               (Inputs.start Inputs.cache) in
  status (snd run)
  = [(opGroupTooManyCond,
      [opGroupTooManyObj Inputs.generatedGroup; opGroupTooManyObj Inputs.extraGroup])]
  /\ requests (snd run) = []
  /\ heap (snd run) = Inputs.cache.
Proof.
  intros policy E run.
  destruct (handleOpGroup_too_many E policy Inputs.defaultGroup
              (Inputs.start Inputs.cache) 1 2 [] eq_refl eq_refl)
    as (_ & Hstatus & _ & _ & _ & Hrequests & Hheap).
  split; [exact Hstatus|]. split; assumption.
Defined.

Lemma reconcilers_keep_the_cache_witness :
  let policy := Inputs.policy Enforce (Some Inputs.groupSpec) [] in
  let E := Inputs.cluster policy (Some 3) [1] Inputs.accepts in
  let st := Inputs.start Inputs.cache in
  let groups := handleOpGroup E policy (Some Inputs.specifiedGroup) st in
  let subs := handleSubscription E policy (Some (Inputs.quaySubscription "Automatic"))
                st in
  (List.filter isMutation (requests (snd groups)) <> []
   /\ deref (heap (snd groups)) 1 = Inputs.generatedGroup)
  /\ (List.filter isMutation (requests (snd subs)) <> []
      /\ deref (heap (snd subs)) 3 = deref Inputs.cache 3).
Proof.
  intros policy E st groups subs.
  destruct (reconcilers_keep_the_cache E policy st (Some Inputs.specifiedGroup)
              (Some (Inputs.quaySubscription "Automatic")) 1 ltac:(cbn; lia))
    as [Hgroup _].
  destruct (reconcilers_keep_the_cache E policy st (Some Inputs.specifiedGroup)
              (Some (Inputs.quaySubscription "Automatic")) 3 ltac:(cbn; lia))
    as [_ Hsub].
  split; (split; [vm_compute; discriminate | assumption]).
Defined.

(** The subscription of the concrete cluster that needs no update, in a
    namespace where another subscription cannot be resolved. *)
Lemma unrelated_resolution_failure_witness :
  let policy := Inputs.policy Inform None [] in
  let E := Inputs.cluster policy (Some 4) [1] Inputs.accepts in
  let run := handleSubscription E policy (Some (Inputs.quaySubscription "Automatic"))
               (Inputs.start Inputs.cache) in
  scStatus (resolutionFailure (Inputs.typed (deref Inputs.cache 4))) = ConditionTrue
  /\ map fst (status (snd run)) = [matchesCond "Subscription"].
Proof.
  intros policy E run. split; [reflexivity|].
  pose (st := Inputs.start Inputs.cache).
  pose (desired := Inputs.unstructured
                     (Sample.fromSubscription (Inputs.quaySubscription "Automatic"))).
  pose (st2 := snd (mergeObjects E desired (fst (DeepCopy 4 st)) "musthave"
                      (snd (DeepCopy 4 st)))).
  destruct (unrelated_resolution_failure E policy (Inputs.quaySubscription "Automatic")
              (Inputs.typed (deref (heap st2) 8)) st st2 4 desired false
              eq_refl ltac:(cbn; lia) eq_refl eq_refl eq_refl)
    as (_ & _ & _ & _ & Hrun).
  destruct (Hrun eq_refl eq_refl) as (_ & Hstatus & _).
  exact (eq_trans (f_equal (map fst) Hstatus) eq_refl).
Defined.

(** The subscription of the concrete cluster whose name is not valid
    UTF-8: the pattern does not compile. *)
Lemma failed_correlation_check_witness :
  let policy := Inputs.policy Inform None [] in
  let E := Inputs.cluster policy (Some 5) [1] Inputs.accepts in
  let desired := Inputs.named Inputs.brokenName "Automatic" in
  let run := handleSubscription E policy (Some desired) (Inputs.start Inputs.cache) in
  messageIncludesSubscription desired
    (Inputs.noOperatorsFound "project-quay-does-not-exist")
  = (false, Some "error parsing regexp: invalid UTF-8")
  /\ exists cond,
       map fst (status (snd run)) = [literalCond cond]
       /\ condStatus cond = ConditionFalse.
Proof.
  intros policy E desired run. split; [reflexivity|].
  pose (st := Inputs.start Inputs.cache).
  pose (du := Inputs.unstructured (Sample.fromSubscription desired)).
  pose (st2 := snd (mergeObjects E du (fst (DeepCopy 5 st)) "musthave"
                      (snd (DeepCopy 5 st)))).
  destruct (failed_correlation_check E policy desired
              (Inputs.typed (deref (heap st2) 8)) st st2 5 du false
              eq_refl ltac:(cbn; lia) eq_refl eq_refl eq_refl
              "error parsing regexp: invalid UTF-8" eq_refl eq_refl)
    as (cond & Hstatus & _ & Hfalse & _).
  exists cond.
  split; [exact (eq_trans (f_equal (map fst) Hstatus) eq_refl)|exact Hfalse].
Defined.

(** ** Where the model does write through a pointer *)

(** The merge engine writes into the object it is given: without the
    copy, the cached operator group would be changed. *)
Example mergeObjects_writes_existing :
  let policy := Inputs.policy Enforce (Some Inputs.groupSpec) [] in
  let E := Inputs.cluster policy None [1] Inputs.accepts in
  let desired := Inputs.unstructured (Sample.fromOperatorGroup Inputs.specifiedGroup) in
  deref (heap (snd (mergeObjects E desired 1 "musthave" (Inputs.start Inputs.cache)))) 1
  <> Inputs.generatedGroup.
Proof. vm_compute. discriminate. Qed.

(** The install-plan approver sets [spec.approved] in the object of the
    watch cache itself. *)
Example handleInstallPlan_writes_cached_plan :
  let policy := Inputs.policy Enforce None ["quay-operator.v3.8.13"] in
  let E := Inputs.cluster policy (Some 3) [1] Inputs.accepts in
  deref (heap (snd (handleInstallPlan E policy (Some (Inputs.quaySubscription "Manual"))
                      (Inputs.start Inputs.cache)))) 6
  <> deref Inputs.cache 6.
Proof. vm_compute. discriminate. Qed.
